(** * tap-mongodb: the collection stream ([tap_mongodb/streams.py])

    A shallow embedding of [CollectionStream._increment_stream_state] and
    [CollectionStream.get_records], with the collaborators they call (the
    BSON [ObjectId], the pymongo collection and change stream, the Singer SDK
    bookmark helper) modelled next to them, and the properties of the
    replication-state engine proved over the embedding. *)

From Stdlib Require Import ZArith NArith Strings.String Strings.Ascii Strings.Byte.
From Stdlib Require Import List Bool Lia.
From stdpp Require Import base option list gmap strings sorting.

Set Warnings "-register-all".

(** ** Python values

    Source documents, change events and emitted records are Python [dict]s
    with string keys; their values are the few BSON/JSON shapes the stream
    touches. *)

Module Bson.

(** [bson.objectid.ObjectId]: twelve bytes. *)
Inductive ObjectId :=
| OID (b0 b1 b2 b3 b4 b5 b6 b7 b8 b9 b10 b11 : byte).

Definition binary (o : ObjectId) : list byte :=
  let 'OID b0 b1 b2 b3 b4 b5 b6 b7 b8 b9 b10 b11 := o in
  [b0; b1; b2; b3; b4; b5; b6; b7; b8; b9; b10; b11].

Definition hex_digit (n : N) : ascii :=
  match n with
  | 0 => "0" | 1 => "1" | 2 => "2" | 3 => "3" | 4 => "4" | 5 => "5"
  | 6 => "6" | 7 => "7" | 8 => "8" | 9 => "9" | 10 => "a" | 11 => "b"
  | 12 => "c" | 13 => "d" | 14 => "e" | _ => "f"
  end%N%char.

Definition hex_value (c : ascii) : option N :=
  let n := N_of_ascii c in
  if (48 <=? n)%N && (n <=? 57)%N then Some (n - 48)%N
  else if (97 <=? n)%N && (n <=? 102)%N then Some (n - 87)%N
  else if (65 <=? n)%N && (n <=? 70)%N then Some (n - 55)%N
  else None.

(** [binascii.hexlify]: two lowercase hexadecimal digits per byte. *)
Fixpoint hexlify (bs : list byte) : string :=
  match bs with
  | [] => EmptyString
  | b :: bs' =>
      let n := Byte.to_N b in
      String (hex_digit (n / 16)) (String (hex_digit (n mod 16)) (hexlify bs'))
  end.

(** ASCII whitespace: space, and the characters 9 to 13. *)
Definition is_space (c : ascii) : bool :=
  let n := N_of_ascii c in
  (n =? 32)%N || (9 <=? n)%N && (n <=? 13)%N.

(** [bytes.fromhex]: pairs of hexadecimal digits, with ASCII whitespace
    skipped before each pair; [None] is its [ValueError]. *)
Fixpoint bytes_fromhex (s : string) : option (list byte) :=
  match s with
  | EmptyString => Some []
  | String c1 rest1 =>
      if is_space c1 then bytes_fromhex rest1
      else
        match rest1 with
        | EmptyString => None
        | String c2 rest =>
            match hex_value c1, hex_value c2 with
            | Some hi, Some lo =>
                match Byte.of_N (16 * hi + lo), bytes_fromhex rest with
                | Some b, Some bs => Some (b :: bs)
                | _, _ => None
                end
            | _, _ => None
            end
        end
  end.

(** [str(object_id)]. *)
Definition str (o : ObjectId) : string := hexlify (binary o).

(** What [ObjectId(text)] builds: an ObjectId of twelve bytes, or, from a
    text in which [bytes.fromhex] skipped whitespace, an object that holds
    fewer bytes. *)
Inductive parsed :=
| Whole (o : ObjectId)
| Short (bs : list byte).

(** [ObjectId(text)]: the text must have 24 characters and be accepted by
    [bytes.fromhex]; [None] is [bson.errors.InvalidId]. The bytes are not
    counted, so a 24-character text with whitespace gives a [Short] object
    without any error. *)
Definition parse (oid : string) : option parsed :=
  if Nat.eqb (String.length oid) 24 then
    match bytes_fromhex oid with
    | Some [b0; b1; b2; b3; b4; b5; b6; b7; b8; b9; b10; b11] =>
        Some (Whole (OID b0 b1 b2 b3 b4 b5 b6 b7 b8 b9 b10 b11))
    | Some bs => Some (Short bs)
    | None => None
    end
  else None.

Definition byte_of_N (n : N) : byte :=
  match Byte.of_N (n mod 256) with
  | Some b => b
  | None => x00
  end.

(** [ObjectId.from_datetime]: [struct.pack(">I", timestamp)] followed by
    eight zero bytes; the packing raises [struct.error] outside the unsigned
    32-bit range ([None]). *)
Definition from_datetime (timestamp : Z) : option ObjectId :=
  if (0 <=? timestamp)%Z && (timestamp <? 2 ^ 32)%Z then
    let t := Z.to_N timestamp in
    Some (OID (byte_of_N (t / 2 ^ 24)) (byte_of_N (t / 2 ^ 16))
              (byte_of_N (t / 2 ^ 8)) (byte_of_N t)
              x00 x00 x00 x00 x00 x00 x00 x00)
  else None.

(** BSON orders ObjectIds by their bytes, most significant first. *)
Definition to_N (o : ObjectId) : N :=
  fold_left (fun acc b => (acc * 256 + Byte.to_N b)%N) (binary o) 0%N.

Definition ltb (a b : ObjectId) : bool := (to_N a <? to_N b)%N.

End Bson.

Import Bson.

Inductive value :=
| VNone
| VBool (b : bool)
| VInt (z : Z)
| VStr (s : string)
| VObjectId (o : ObjectId)
| VTimestamp (time : Z)
| VDict (d : gmap string value).

Abbreviation pydict := (gmap string value).

(** ** Exceptions *)

Inductive exn :=
| ValueError (msg : string)
| KeyError (key : string)
| TypeError (msg : string)
| AttributeError (msg : string)
| StructError
| InvalidStreamSortException (latest previous : string)
| OperationFailure (msg : string).

(** ** Observable effects other than the yielded records *)

Inductive effect :=
| LogInfo (msg : string)
| LogWarning (msg : string)
| LogCritical (msg : string)
| Find (gt : option ObjectId)
| FindShort (gt : list byte)
| Watch (full_document : string) (resume_after : option string)
| CloseChangeStream.

(** ** The collaborators of the stream *)

(** The tap configuration, with the three options the stream reads through
    [self.config.get]; [None] is an option that is not set. *)
Record Config := {
  add_record_metadata : option bool;
  start_date : option string;
  operation_types : option (list string);
}.

(** The outcome of one [try_next]: the next event or [None], or the error
    it raises (a [PyMongoError], when the stream cannot be resumed). What
    was polled without error is written as the [option] it is. *)
Inductive poll :=
| Polled (record : option pydict)
| PollError (e : exn).

#[warnings="-uniform-inheritance"]
Coercion Polled : option >-> poll.

(** A pymongo change stream as the loop sees it: whether the cursor is alive
    before the [n]-th poll and the outcome of that poll ([try_next]). *)
Record ChangeStream := {
  alive : nat -> bool;
  try_next : nat -> poll;
}.

(** A pymongo collection: the documents it holds, the outcome of opening a
    change stream on it with the given options, and what the driver makes of
    a [Short] ObjectId in a query. The driver encodes an ObjectId as twelve
    bytes; for an object that holds fewer, the source does not determine the
    outcome: the encoder fails, or it sends some twelve bytes. *)
Record Collection := {
  documents : list pydict;
  watch : string -> option string -> exn + ChangeStream;
  short_id_sent : list byte -> exn + ObjectId;
}.

(** Modelled from the spec: the query of the source client is pymongo's and
    not part of the repository. Section 6 asks of it "an ordered-scan query
    operation accepting a greater-than identifier filter and an ascending
    sort order over that identifier". [matches_gt] is the filter
    [{"_id": {"$gt": bound}}]: comparison operators of the source only match
    values of the bound's own BSON type, so an ObjectId bound selects the
    documents whose [_id] is a greater ObjectId and a null bound selects
    none. *)
Definition matches_gt (bound : option ObjectId) (doc : pydict) : bool :=
  match bound, doc !! "_id" with
  | Some b, Some (VObjectId o) => Bson.ltb b o
  | _, _ => false
  end.

Definition sort_key (doc : pydict) : N :=
  match doc !! "_id" with
  | Some (VObjectId o) => Bson.to_N o
  | _ => 0%N
  end.

Definition id_le (d1 d2 : pydict) : Prop := (sort_key d1 <= sort_key d2)%N.

#[global] Instance id_le_dec d1 d2 : Decision (id_le d1 d2).
Proof. unfold id_le. apply _. Defined.

(** [collection.find({"_id": {"$gt": bound}}).sort([("_id", ASCENDING)])]. *)
Definition find_gt_sorted (c : Collection) (bound : option ObjectId) : list pydict :=
  merge_sort id_le (List.filter (matches_gt bound) (documents c)).

(** A start of twelve bytes, or none, as the code holds it. *)
Definition whole (bound : option ObjectId) : option parsed := Whole <$> bound.

(** The query as the code asks for it, with [start_date] as built by
    [ObjectId(bookmark)] or [ObjectId.from_datetime]: the effect observed,
    and the bound the source compares with, or the error of the driver. *)
Definition query_bound (c : Collection) (start_date : option parsed)
    : effect * (exn + option ObjectId) :=
  match start_date with
  | None => (Find None, inr None)
  | Some (Whole o) => (Find (Some o), inr (Some o))
  | Some (Short bs) =>
      (FindShort bs,
       match short_id_sent c bs with
       | inl e => inl e
       | inr o => inr (Some o)
       end)
  end.

(** Modelled from the spec: the two replication-method constants are imported
    from [singer_sdk.streams.core]; the spec names the modes Incremental and
    LogBased. *)
Definition REPLICATION_INCREMENTAL : string := "INCREMENTAL".
Definition REPLICATION_LOG_BASED : string := "LOG_BASED".

(** ** The bookmark store *)

(** Modelled from the spec: the stream's state entry is kept by the Singer
    SDK. Section 3: a bookmark is an "opaque string position value", "either
    absent (stream never run) or a valid position previously reported by a
    reader". *)
Definition Bookmark := option string.

(** Modelled from the spec: [get_starting_replication_key_value] is the
    SDK's; section 4.1, [get], "returns current position or indicates start
    from configured default". *)
Definition get_starting_replication_key_value (state : Bookmark) : option string := state.

(** Python's [<] on [str]: lexical comparison of the code points. *)
Definition str_lt (a b : string) : bool := String.ltb a b.

(** Modelled from the spec: [increment_state] is the SDK's helper
    ([singer_sdk.helpers._state]). Section 4.1, [advance]: with [is_sorted]
    true it "fails with an OutOfOrderError if candidate compares less than
    the stored position" under "lexical string comparison"; with [is_sorted]
    false "the candidate simply overwrites the stored position
    unconditionally". The candidate is the record's value at the replication
    key. The result is the store after the call and the exception raised, if
    any. *)
Definition increment_state (state_dict : Bookmark) (replication_key : string)
    (latest_record : pydict) (is_sorted check_sorted : bool)
    : Bookmark * option exn :=
  match latest_record !! replication_key with
  | None => (state_dict, Some (KeyError replication_key))
  | Some (VStr candidate) =>
      match state_dict with
      | Some stored =>
          if is_sorted && str_lt candidate stored
          then (state_dict, Some (InvalidStreamSortException candidate stored))
          else (Some candidate, None)
      | None => (Some candidate, None)
      end
  | Some _ => (state_dict, Some (TypeError "replication key value is not a string"))
  end.

(** ** The stream *)

Record CollectionStream := {
  name : string;
  replication_method : string;
  replication_key : option string;
  is_sorted : bool;
  check_sorted : bool;
  state_partitioning_keys : option (list string);
  config : Config;
  _collection : Collection;
}.

Definition unrecognized_method_msg (self : CollectionStream) : string :=
  "Unrecognized replication method " +:+ replication_method self +:+ ". Only "
  +:+ REPLICATION_INCREMENTAL
  +:+ " and {REPLICATION_LOG_BASED} replication methods are supported.".

Definition missing_key_msg (self : CollectionStream) : string :=
  "Could not detect replication key for '" +:+ name self
  +:+ "' stream(replication method=" +:+ replication_method self +:+ ")".

Definition supported_method (m : string) : bool :=
  String.eqb m REPLICATION_INCREMENTAL || String.eqb m REPLICATION_LOG_BASED.

(** Lines 84-87: the flag handed to [increment_state]. *)
Definition treat_as_sorted (self : CollectionStream) : bool :=
  let treat_as_sorted := is_sorted self in
  if negb treat_as_sorted && bool_decide (state_partitioning_keys self <> None)
  then false
  else treat_as_sorted.

(** The outcome of a call that updates the state entry in place: the entry
    afterwards, what was logged, and the exception raised, if any. *)
Record advanced := {
  state_after : Bookmark;
  logged : list effect;
  raised : option exn;
}.

(** [CollectionStream._increment_stream_state] (lines 49-94); [state_dict]
    is the entry [get_context_state] returns for the context. *)
Definition _increment_stream_state (self : CollectionStream)
    (latest_record : pydict) (state_dict : Bookmark) : advanced :=
  if negb (supported_method (replication_method self)) then
    let msg := unrecognized_method_msg self in
    {| state_after := state_dict; logged := [LogCritical msg];
       raised := Some (ValueError msg) |}
  else
    match replication_key self with
    | None | Some EmptyString =>
        {| state_after := state_dict; logged := [];
           raised := Some (ValueError (missing_key_msg self)) |}
    | Some key =>
        let '(st, e) := increment_state state_dict key latest_record
                          (treat_as_sorted self) (check_sorted self) in
        {| state_after := st; logged := []; raised := e |}
    end.

(** ** Generators

    A generator is observed through the records it yields, the effects it
    has, and how the observation ends: the generator returned, it raised, or
    it is still running when the observer stops pulling ([Running]). *)

Inductive status :=
| Returned
| Raised (e : exn)
| Running.

Record generated := {
  yielded : list pydict;
  effects : list effect;
  ending : status;
}.

#[global] Instance exn_ret : MRet (sum exn) := fun _ x => inr x.
#[global] Instance exn_bind : MBind (sum exn) := fun _ _ f m =>
  match m with
  | inl e => inl e
  | inr x => f x
  end.

(** [d[key]], raising [KeyError] on a missing key. *)
Definition getitem (d : pydict) (key : string) : exn + value :=
  match d !! key with
  | Some v => inr v
  | None => inl (KeyError key)
  end.

(** [v[key]] on a value that need not be a [dict]. *)
Definition subscript (v : value) (key : string) : exn + value :=
  match v with
  | VDict d => getitem d key
  | _ => inl (TypeError "value is not subscriptable by a string key")
  end.

(** [bson.timestamp.Timestamp.as_datetime], as seconds since the epoch. *)
Definition as_datetime (v : value) : exn + Z :=
  match v with
  | VTimestamp time => inr time
  | _ => inl (AttributeError "as_datetime")
  end.

(** [operation_type not in operation_types_allowlist], the allow-list being a
    [set] of strings: a [dict] cannot be hashed, and a value that is no
    string is in no set of strings. *)
Definition not_in_allowlist (operation_type : value) (allowlist : list string)
    : exn + bool :=
  match operation_type with
  | VStr s => inr (negb (bool_decide (s ∈ allowlist)))
  | VDict _ => inl (TypeError "unhashable type: 'dict'")
  | _ => inr true
  end.

(** [v == s] for a string literal [s]. *)
Definition str_eq (v : value) (s : string) : bool :=
  match v with
  | VStr s' => String.eqb s' s
  | _ => false
  end.

Module Streams.
Section Stream.

(** The clock and the date functions of the Python runtime and of the SDK:
    [strptime_to_utc] followed by [calendar.timegm] (seconds since the
    epoch), [datetime.isoformat], and the [n]-th reading of
    [datetime.utcnow().isoformat()]. *)
Variable strptime_to_utc : string -> exn + Z.
Variable isoformat : Z -> string.
Variable utcnow_isoformat : nat -> string.

Definition should_add_metadata (self : CollectionStream) : bool :=
  default false (add_record_metadata (config self)).

(** Lines 103-115: the starting identifier of the ordered scan, with what is
    logged on the way. *)
Definition starting_id (self : CollectionStream) (bookmark : option string)
    : list effect * (exn + option parsed) :=
  match bookmark with
  | Some (String _ _ as bookmark) =>
      match Bson.parse bookmark with
      | Some start_date => ([], inr (Some start_date))
      | None =>
          ([LogWarning ("Replication key value " +:+ bookmark
                        +:+ " cannot be parsed into ObjectId.")],
           inr None)
      end
  | _ =>
      let start_date_str := default "1970-01-01" (start_date (config self)) in
      let log := [LogInfo ("using start_date_str: " +:+ start_date_str)] in
      match strptime_to_utc start_date_str with
      | inl e => (log, inl e)
      | inr start_date_dt =>
          match Bson.from_datetime start_date_dt with
          | Some start_date => (log, inr (Some (Whole start_date)))
          | None => (log, inl StructError)
          end
      end
  end.

(** Lines 120-126: the record emitted for one document of the scan, the
    [n]-th of it. The source annotates [record["_id"]] as an [ObjectId]; the
    query returns no other document ([scan_emitted] below), so the last
    branch is never taken by [get_records]. *)
Definition incremental_record (metadata : bool) (n : nat) (record : pydict)
    : exn + pydict :=
  match record !! "_id" with
  | None => inl (KeyError "_id")
  | Some (VObjectId object_id) =>
      let parsed_record : pydict :=
        <["document" := VDict record]>
          (<["_id" := VStr (Bson.str object_id)]> ∅) in
      inr (if metadata
           then <["_sdc_batched_at" := VStr (utcnow_isoformat n)]> parsed_record
           else parsed_record)
  | Some _ => inl (TypeError "_id is not an ObjectId")
  end.

(** Lines 117-127: the loop over the cursor. *)
Fixpoint scan (metadata : bool) (n : nat) (cursor : list pydict)
    : list pydict * status :=
  match cursor with
  | [] => ([], Returned)
  | record :: cursor' =>
      match incremental_record metadata n record with
      | inl e => ([], Raised e)
      | inr parsed_record =>
          let '(rest, s) := scan metadata (S n) cursor' in
          (parsed_record :: rest, s)
      end
  end.

(** Lines 153-175: what one change event becomes: [inr None] when the loop
    [continue]s past it, [inr (Some r)] when it yields [r]. *)
Definition log_based_record (metadata : bool) (n : nat)
    (allowlist : list string) (record : pydict) : exn + option pydict :=
  operation_type ← getitem record "operationType";
  skip ← not_in_allowlist operation_type allowlist;
  if (skip : bool) then mret (None : option pydict) else
  cluster_time ← getitem record "clusterTime" ≫= as_datetime;
  id ← getitem record "_id" ≫= (fun v => subscript v "_data");
  document ← getitem record "fullDocument";
  ns ← getitem record "ns";
  let parsed_record : pydict :=
    <["ns" := ns]>
      (<["clusterTime" := VStr (isoformat cluster_time)]>
         (<["operationType" := operation_type]>
            (<["document" := document]> (<["_id" := id]> ∅)))) in
  mret (Some
    (if metadata then
       let with_times : pydict :=
         <["_sdc_batched_at" := VStr (utcnow_isoformat n)]>
           (<["_sdc_extracted_at" := VStr (isoformat cluster_time)]>
              parsed_record) in
       if str_eq operation_type "delete"
       then <["_sdc_deleted_at" := VStr (isoformat cluster_time)]> with_times
       else with_times
     else parsed_record)).

(** Lines 137-176: the draining loop, from the [n]-th poll on; [fuel] bounds
    the number of polls observed. *)
Fixpoint drain (fuel : nat) (change_stream : ChangeStream) (metadata : bool)
    (allowlist : list string) (n : nat) (has_seen_a_record keep_open : bool)
    : list pydict * status :=
  if negb (alive change_stream n && keep_open) then ([], Returned) else
  match fuel with
  | O => ([], Running)
  | S fuel' =>
      match try_next change_stream n with
      | PollError e => ([], Raised e)
      | Polled record =>
          let keep_open :=
            if bool_decide (record = None) && has_seen_a_record
            then false else keep_open in
          match record with
          | None =>
              drain fuel' change_stream metadata allowlist (S n)
                has_seen_a_record keep_open
          | Some record =>
              match log_based_record metadata n allowlist record with
              | inl e => ([], Raised e)
              | inr None =>
                  drain fuel' change_stream metadata allowlist (S n)
                    has_seen_a_record keep_open
              | inr (Some parsed_record) =>
                  let '(rest, s) :=
                    drain fuel' change_stream metadata allowlist (S n) true
                      keep_open in
                  (parsed_record :: rest, s)
              end
          end
      end
  end.

(** The [with] block releases the change stream when the loop leaves it. *)
Definition released (s : status) : list effect :=
  match s with
  | Running => []
  | _ => [CloseChangeStream]
  end.

(** [CollectionStream.get_records] (lines 96-184), observed for at most
    [fuel] polls of the change stream; [state] is the stream's state entry. *)
Definition get_records (self : CollectionStream) (state : Bookmark) (fuel : nat)
    : generated :=
  let bookmark := get_starting_replication_key_value state in
  let metadata := should_add_metadata self in
  if String.eqb (replication_method self) REPLICATION_INCREMENTAL then
    match starting_id self bookmark with
    | (log, inl e) => {| yielded := []; effects := log; ending := Raised e |}
    | (log, inr start_date) =>
        match query_bound (_collection self) start_date with
        | (asked, inl e) =>
            {| yielded := []; effects := log ++ [asked]; ending := Raised e |}
        | (asked, inr bound) =>
            let '(records, s) :=
              scan metadata 0 (find_gt_sorted (_collection self) bound) in
            {| yielded := records; effects := log ++ [asked]; ending := s |}
        end
    end
  else if String.eqb (replication_method self) REPLICATION_LOG_BASED then
    match operation_types (config self) with
    | None =>
        {| yielded := []; effects := [];
           ending := Raised (TypeError "'NoneType' object is not iterable") |}
    | Some operation_types_allowlist =>
        let opened := [Watch "updateLookup" bookmark] in
        match watch (_collection self) "updateLookup" bookmark with
        | inl e => {| yielded := []; effects := opened; ending := Raised e |}
        | inr change_stream =>
            let '(records, s) :=
              drain fuel change_stream metadata operation_types_allowlist
                0 false true in
            {| yielded := records; effects := opened ++ released s; ending := s |}
        end
    end
  else
    let msg := unrecognized_method_msg self in
    {| yielded := []; effects := [LogCritical msg]; ending := Raised (ValueError msg) |}.

(** The starting position [S] of an Incremental run: the bookmark parsed as
    an ObjectId when there is one, otherwise the ObjectId of the configured
    [start_date] (default 1970-01-01). *)
Definition starts_at (self : CollectionStream) (state : Bookmark) (S : ObjectId)
    : Prop :=
  (exists bookmark, state = Some bookmark /\ Bson.parse bookmark = Some (Whole S))
  \/ (state = None
      /\ exists t, strptime_to_utc (default "1970-01-01" (start_date (config self)))
                   = inr t
                   /\ Bson.from_datetime t = Some S).

(** [r] was yielded for a polled event whose operation type is in the
    allow-list. *)
Definition from_allowed_event (cs : ChangeStream) (metadata : bool)
    (allowlist : list string) (r : pydict) : Prop :=
  exists k record op,
    try_next cs k = Some record
    /\ log_based_record metadata k allowlist record = inr (Some r)
    /\ record !! "operationType" = Some (VStr op)
    /\ op ∈ allowlist
    /\ r !! "operationType" = Some (VStr op).

End Stream.
End Streams.

Import Streams.

(** ** The sync loop *)

(** Modelled from the spec: the loop that consumes the generator is the
    SDK's. Section 2: the "Engine normalizes each into an emission record and
    reports the new position to the Bookmark Store"; section 3: the bookmark
    is "overwritten after every record processed". The loop stops at the
    first call that raises. *)
Fixpoint advance_all (self : CollectionStream) (records : list pydict)
    (state : Bookmark) : Bookmark * option exn :=
  match records with
  | [] => (state, None)
  | record :: records' =>
      let a := _increment_stream_state self record state in
      match raised a with
      | Some e => (state_after a, Some e)
      | None => advance_all self records' (state_after a)
      end
  end.

(** * Vocabulary of the properties *)

(** The document has an ObjectId for [_id]. *)
Definition has_object_id (doc : pydict) : Prop :=
  exists o, doc !! "_id" = Some (VObjectId o).

(** [r] is the record of the source document [doc]: its [_id] is the text of
    the document's ObjectId and its [document] is the whole document. *)
Definition emitted_for (r doc : pydict) : Prop :=
  exists o, doc !! "_id" = Some (VObjectId o)
            /\ r !! "_id" = Some (VStr (Bson.str o))
            /\ r !! "document" = Some (VDict doc).

(** The event carries an operation type that the allow-list excludes. *)
Definition excluded (allowlist : list string) (record : pydict) : Prop :=
  exists op, record !! "operationType" = Some (VStr op) /\ op ∉ allowlist.

(** The poll is idle for the allow-list: it returns nothing, or an event the
    allow-list excludes. *)
Definition idle_poll (allowlist : list string) (polled : poll) : Prop :=
  match polled with
  | Polled None => True
  | Polled (Some record) => excluded allowlist record
  | PollError _ => False
  end.

(** The record carries the string [v] at the replication key. *)
Definition carries (key : string) (record : pydict) (v : string) : Prop :=
  record !! key = Some (VStr v).

(** The stored position, if any, is not greater than [v]. *)
Definition not_after (state : Bookmark) (v : string) : Prop :=
  forall stored, state = Some stored -> str_lt v stored = false.

(** The stream passes the two configuration checks of
    [_increment_stream_state] with [key] as its replication key. *)
Definition configured (self : CollectionStream) (key : string) : Prop :=
  (replication_method self = REPLICATION_INCREMENTAL
   \/ replication_method self = REPLICATION_LOG_BASED)
  /\ replication_key self = Some key /\ key <> EmptyString.

(** The record of the document [doc], whose [_id] is [o], before any metadata
    is attached (lines 121-124). *)
Definition bare_record (doc : pydict) (o : ObjectId) : pydict :=
  <["document" := VDict doc]> (<["_id" := VStr (Bson.str o)]> ∅).

(** The record, without metadata, of a document whose [_id] is an ObjectId
    (the empty record for any other document). *)
Definition bare_of (doc : pydict) : pydict :=
  match doc !! "_id" with
  | Some (VObjectId o) => bare_record doc o
  | _ => ∅
  end.

(** No two documents of the collection have the same [_id]. *)
Definition unique_ids (c : Collection) : Prop :=
  NoDup ((fun doc : pydict => doc !! "_id") <$> documents c).

(** What the [k]-th poll of the change stream contributes to the output:
    the record of its event when that event is normalized to one. *)
Definition emitted_at (isoformat : Z -> string) (utcnow_isoformat : nat -> string)
    (cs : ChangeStream) (metadata : bool) (allowlist : list string) (k : nat)
    : option pydict :=
  match try_next cs k with
  | Polled (Some record) =>
      match log_based_record isoformat utcnow_isoformat metadata k allowlist record with
      | inr (Some r) => Some r
      | _ => None
      end
  | _ => None
  end.

(** The stream with other state partitioning keys. *)
Definition with_state_partitioning_keys (self : CollectionStream)
    (keys : option (list string)) : CollectionStream :=
  {| name := name self; replication_method := replication_method self;
     replication_key := replication_key self; is_sorted := is_sorted self;
     check_sorted := check_sorted self; state_partitioning_keys := keys;
     config := config self; _collection := _collection self |}.

(** The [_id] texts of a list of records. *)
Definition id_texts (records : list pydict) : list string :=
  omap (fun r : pydict =>
          match r !! "_id" with
          | Some (VStr s) => Some s
          | _ => None
          end) records.

(** * Sample inputs *)

Module Sample.

(** The date functions on the dates the runs below use. *)
Definition strptime_to_utc (s : string) : exn + Z :=
  if String.eqb s "1970-01-01" then inr 0%Z
  else if String.eqb s "2023-11-14" then inr 1699920000%Z
  else inl (ValueError ("Unknown string format: " +:+ s)).

Definition isoformat (t : Z) : string :=
  if (t =? 1700000000)%Z then "2023-11-14T22:13:20+00:00"
  else if (t =? 1700000060)%Z then "2023-11-14T22:14:20+00:00"
  else "1970-01-01T00:00:00+00:00".

Definition utcnow_isoformat (n : nat) : string := "2023-11-15T08:00:00.000000".

(** Three identifiers I1 < I2 < I3, generated at 2023-11-14T22:13:20Z. *)
Definition I1 : ObjectId := OID x65 x53 xf1 x00 x00 x00 x00 x00 x00 x00 x00 x01.
Definition I2 : ObjectId := OID x65 x53 xf1 x00 x00 x00 x00 x00 x00 x00 x00 x02.
Definition I3 : ObjectId := OID x65 x53 xf1 x00 x00 x00 x00 x00 x00 x00 x00 x03.

Definition order (o : ObjectId) (item : string) : pydict :=
  {[ "_id" := VObjectId o; "item" := VStr item ]}.

Definition namespace : value :=
  VDict {[ "db" := VStr "shop"; "coll" := VStr "orders" ]}.

Definition insert_event : pydict :=
  {[ "_id" := VDict {[ "_data" := VStr "8265537DA0000000012B0229296E04" ]};
     "operationType" := VStr "insert";
     "clusterTime" := VTimestamp 1700000000;
     "ns" := namespace;
     "documentKey" := VDict {[ "_id" := VObjectId I1 ]};
     "fullDocument" := VDict (order I1 "tea") ]}.

(** A delete event as the source reports it: it has no [fullDocument]. *)
Definition delete_event : pydict :=
  {[ "_id" := VDict {[ "_data" := VStr "8265537DDC000000012B0229296E04" ]};
     "operationType" := VStr "delete";
     "clusterTime" := VTimestamp 1700000060;
     "ns" := namespace;
     "documentKey" := VDict {[ "_id" := VObjectId I1 ]} ]}.

(** A change stream that stays alive and returns the scripted polls, then
    nothing. *)
Definition scripted (polls : list (option pydict)) : ChangeStream :=
  {| alive := fun _ => true;
     try_next := fun n => default None (polls !! n) |}.

Definition orders (polls : list (option pydict)) : Collection :=
  {| documents := [order I3 "cocoa"; order I1 "tea"; order I2 "coffee"];
     watch := fun _ _ => inr (scripted polls);
     short_id_sent := fun _ => inl (OperationFailure "invalid BSON") |}.

Definition settings (operations : option (list string)) : Config :=
  {| add_record_metadata := None; start_date := None;
     operation_types := operations |}.

(** The stream as the class declares it: replication key [_id], not sorted,
    no state partitioning keys. *)
Definition stream (method : string) (operations : option (list string))
    (polls : list (option pydict)) : CollectionStream :=
  {| name := "orders"; replication_method := method;
     replication_key := Some "_id"; is_sorted := false; check_sorted := true;
     state_partitioning_keys := None; config := settings operations;
     _collection := orders polls |}.

Definition incremental : CollectionStream := stream "INCREMENTAL" None [].


(** The Incremental stream with a [start_date] that is no date. *)
Definition undated : CollectionStream :=
  {| name := "orders"; replication_method := "INCREMENTAL";
     replication_key := Some "_id"; is_sorted := false; check_sorted := true;
     state_partitioning_keys := None;
     config := {| add_record_metadata := None; start_date := Some "soon";
                  operation_types := None |};
     _collection := orders [] |}.

(** A stream that declares itself sorted. *)
Definition sorted : CollectionStream :=
  {| name := "orders"; replication_method := "INCREMENTAL";
     replication_key := Some "_id"; is_sorted := true; check_sorted := true;
     state_partitioning_keys := None; config := settings None;
     _collection := orders [] |}.

(** A stream with a replication method outside the two supported ones and
    no replication key. *)
Definition full_table_keyless : CollectionStream :=
  {| name := "orders"; replication_method := "FULL_TABLE";
     replication_key := None; is_sorted := false; check_sorted := true;
     state_partitioning_keys := None; config := settings None;
     _collection := orders [] |}.

(** A stream with a supported replication method and no replication key. *)
Definition incremental_keyless : CollectionStream :=
  {| name := "orders"; replication_method := "INCREMENTAL";
     replication_key := None; is_sorted := false; check_sorted := true;
     state_partitioning_keys := None; config := settings None;
     _collection := orders [] |}.

Definition run (self : CollectionStream) (state : Bookmark) (fuel : nat)
    : generated :=
  get_records strptime_to_utc isoformat utcnow_isoformat self state fuel.

Definition ids (records : list pydict) : list (option value) :=
  (fun r : pydict => r !! "_id") <$> records.

(** A change stream without events whose cursor is alive before the first
    [k] polls only. *)
Definition dying (k : nat) : ChangeStream :=
  {| alive := fun n => n <? k; try_next := fun _ => None |}.

(** A change stream whose polls fail. *)
Definition interrupted : ChangeStream :=
  {| alive := fun _ => true;
     try_next := fun _ => PollError (OperationFailure "connection closed") |}.

(** A LogBased stream over a collection whose change stream is [cs]. *)
Definition stream_on (operations : option (list string)) (cs : ChangeStream)
    : CollectionStream :=
  {| name := "orders"; replication_method := "LOG_BASED";
     replication_key := Some "_id"; is_sorted := false; check_sorted := true;
     state_partitioning_keys := None; config := settings operations;
     _collection :=
       {| documents := []; watch := fun _ _ => inr cs;
          short_id_sent := fun _ => inl (OperationFailure "invalid BSON") |} |}.

(** A delete, then an insert, then nothing, with inserts and updates
    allowed. *)
Definition backlog : CollectionStream :=
  stream "LOG_BASED" (Some ["insert"; "update"])
    [Some delete_event; Some insert_event; None].

(** The record of [insert_event]. *)
Definition insert_record : pydict :=
  {[ "_id" := VStr "8265537DA0000000012B0229296E04";
     "document" := VDict (order I1 "tea");
     "operationType" := VStr "insert";
     "clusterTime" := VStr "2023-11-14T22:13:20+00:00";
     "ns" := namespace ]}.

End Sample.

(** * Properties *)

(** ** ObjectIds and their text *)

Module BsonFacts.

Lemma fromhex_byte (b : byte) (rest : string) :
  bytes_fromhex
    (String (hex_digit (Byte.to_N b / 16))
       (String (hex_digit (Byte.to_N b mod 16)) rest))
  = match bytes_fromhex rest with
    | Some bs => Some (b :: bs)
    | None => None
    end.
Proof. destruct b; reflexivity. Qed.

Lemma fromhex_hexlify (bs : list byte) : bytes_fromhex (hexlify bs) = Some bs.
Proof.
  induction bs as [|b bs IH]; [reflexivity|].
  cbn [hexlify]. rewrite fromhex_byte, IH. reflexivity.
Qed.

Lemma length_hexlify (bs : list byte) :
  String.length (hexlify bs) = 2 * length bs.
Proof. induction bs as [|b bs IH]; cbn [hexlify String.length length]; lia. Qed.

(** Parsing the text of an ObjectId gives the ObjectId back. *)
Lemma parse_str (o : ObjectId) : Bson.parse (Bson.str o) = Some (Whole o).
Proof.
  unfold Bson.parse, Bson.str.
  rewrite length_hexlify, fromhex_hexlify.
  destruct o; reflexivity.
Qed.

(** The text of an ObjectId is not the empty string. *)
Lemma str_nonempty (o : ObjectId) : exists c s, Bson.str o = String c s.
Proof. destruct o; cbn; eauto. Qed.

Lemma ltb_lt (a b : ObjectId) : Bson.ltb a b = true <-> (Bson.to_N a < Bson.to_N b)%N.
Proof. unfold Bson.ltb. apply N.ltb_lt. Qed.

End BsonFacts.

(** ** The ordered scan *)

#[global] Instance id_le_trans : Transitive id_le.
Proof. intros x y z; unfold id_le; lia. Qed.

#[global] Instance id_le_total : Total id_le.
Proof. intros x y; unfold id_le; lia. Qed.

Lemma matches_gt_inv (bound : option ObjectId) (doc : pydict) :
  matches_gt bound doc = true ->
  exists b o, bound = Some b /\ doc !! "_id" = Some (VObjectId o)
              /\ (Bson.to_N b < Bson.to_N o)%N.
Proof.
  unfold matches_gt. destruct bound as [b|]; [|discriminate].
  destruct (doc !! "_id") as [[]|]; try discriminate.
  intros H. apply BsonFacts.ltb_lt in H. eauto.
Qed.

Lemma matches_gt_sort_key (b : ObjectId) (doc : pydict) :
  matches_gt (Some b) doc = true <->
  has_object_id doc /\ (Bson.to_N b < sort_key doc)%N.
Proof.
  unfold matches_gt, has_object_id, sort_key. split.
  - destruct (doc !! "_id") as [[]|]; try discriminate.
    intros H. apply BsonFacts.ltb_lt in H. eauto.
  - intros [[o ->] H]. by apply BsonFacts.ltb_lt.
Qed.

Lemma find_gt_sorted_perm (c : Collection) (bound : option ObjectId) :
  find_gt_sorted c bound ≡ₚ List.filter (matches_gt bound) (documents c).
Proof. apply merge_sort_Permutation. Qed.

Lemma find_gt_sorted_sorted (c : Collection) (bound : option ObjectId) :
  StronglySorted id_le (find_gt_sorted c bound).
Proof. apply (StronglySorted_merge_sort id_le). Qed.

Lemma find_gt_sorted_matches (c : Collection) (bound : option ObjectId) :
  Forall (fun doc => matches_gt bound doc = true) (find_gt_sorted c bound).
Proof.
  apply Forall_forall. intros doc Hin.
  rewrite find_gt_sorted_perm in Hin.
  apply list_elem_of_In, filter_In in Hin. tauto.
Qed.

Lemma find_gt_sorted_elem (c : Collection) (b : ObjectId) (doc : pydict) :
  doc ∈ find_gt_sorted c (Some b) <->
  doc ∈ documents c
  /\ exists o, doc !! "_id" = Some (VObjectId o) /\ (Bson.to_N b < Bson.to_N o)%N.
Proof.
  rewrite find_gt_sorted_perm, list_elem_of_In, filter_In, <- list_elem_of_In.
  split.
  - intros [Hin Hgt]. split; [exact Hin|].
    apply matches_gt_inv in Hgt as (b' & o & [= <-] & Ho & Hlt). eauto.
  - intros [Hin (o & Ho & Hlt)]. split; [exact Hin|].
    unfold matches_gt. rewrite Ho. by apply BsonFacts.ltb_lt.
Qed.

Lemma find_gt_sorted_null (c : Collection) : find_gt_sorted c None = [].
Proof.
  unfold find_gt_sorted.
  replace (List.filter (matches_gt None) (documents c)) with (@nil pydict);
    [reflexivity|].
  induction (documents c) as [|d l IH]; [reflexivity|]. exact IH.
Qed.

Section StreamFacts.

Variable strptime_to_utc : string -> exn + Z.
Variable isoformat : Z -> string.
Variable utcnow_isoformat : nat -> string.

Local Abbreviation starting_id := (starting_id strptime_to_utc).
Local Abbreviation scan := (scan utcnow_isoformat).
Local Abbreviation log_based_record := (log_based_record isoformat utcnow_isoformat).
Local Abbreviation drain := (drain isoformat utcnow_isoformat).
Local Abbreviation get_records := (get_records strptime_to_utc isoformat utcnow_isoformat).
Local Abbreviation starts_at := (starts_at strptime_to_utc).
Local Abbreviation from_allowed_event := (from_allowed_event isoformat utcnow_isoformat).

Lemma starting_id_starts_at self state S :
  starts_at self state S ->
  snd (starting_id self state) = inr (whole (Some S)).
Proof.
  intros [(b & -> & Hb) | (-> & t & Ht & Hs)]; cbn.
  - destruct b as [|c b]; [discriminate|]. by rewrite Hb.
  - by rewrite Ht, Hs.
Qed.

Lemma query_bound_whole (c : Collection) (start : option ObjectId) :
  query_bound c (whole start) = (Find start, inr start).
Proof. by destruct start. Qed.

Lemma incremental_record_emitted metadata n doc :
  has_object_id doc ->
  exists r, incremental_record utcnow_isoformat metadata n doc = inr r
            /\ emitted_for r doc.
Proof.
  intros [o Ho]. unfold incremental_record. rewrite Ho.
  eexists; split; [reflexivity|]. exists o.
  destruct metadata; simplify_map_eq; auto.
Qed.

Lemma scan_emitted metadata cursor : forall n,
  Forall has_object_id cursor ->
  exists records, scan metadata n cursor = (records, Returned)
                  /\ Forall2 emitted_for records cursor.
Proof.
  induction cursor as [|doc cursor IH]; intros n Hall.
  - exists []. split; [reflexivity | constructor].
  - inversion Hall as [|? ? Hdoc Hrest]; subst.
    destruct (incremental_record_emitted metadata n doc Hdoc) as (r & Hr & Hem).
    destruct (IH (S n) Hrest) as (records & Hscan & Hall2).
    exists (r :: records). cbn [Streams.scan].
    rewrite Hr, Hscan. split; [reflexivity | by constructor].
Qed.

Lemma scan_find_gt_sorted (c : Collection) metadata (bound : option ObjectId) :
  exists records,
    scan metadata 0 (find_gt_sorted c bound) = (records, Returned)
    /\ Forall2 emitted_for records (find_gt_sorted c bound).
Proof.
  apply scan_emitted.
  eapply Forall_impl; [apply find_gt_sorted_matches|].
  intros doc Hd. apply matches_gt_inv in Hd as (b & o & _ & Ho & _). by exists o.
Qed.

(** An Incremental run whose start was resolved: the query fails in the
    driver (only possible for a [Short] start), or it is the scan from some
    bound. *)
Lemma get_records_incremental_any self state log start :
  replication_method self = REPLICATION_INCREMENTAL ->
  starting_id self state = (log, inr start) ->
  let asked := fst (query_bound (_collection self) start) in
  (exists e,
     snd (query_bound (_collection self) start) = inl e
     /\ forall fuel,
          get_records self state fuel
          = {| yielded := []; effects := log ++ [asked]; ending := Raised e |})
  \/ (exists bound records,
        snd (query_bound (_collection self) start) = inr bound
        /\ (forall fuel,
              get_records self state fuel
              = {| yielded := records; effects := log ++ [asked];
                   ending := Returned |})
        /\ fst (scan (should_add_metadata self) 0
                  (find_gt_sorted (_collection self) bound)) = records
        /\ Forall2 emitted_for records (find_gt_sorted (_collection self) bound)).
Proof.
  intros Hm Hs asked. subst asked.
  destruct (query_bound (_collection self) start) as [asked [e|bound]] eqn:Hq.
  - left. exists e. split; [reflexivity|]. intros fuel.
    unfold Streams.get_records, get_starting_replication_key_value.
    by rewrite Hm, Hs, Hq.
  - right.
    destruct (scan_find_gt_sorted (_collection self) (should_add_metadata self)
                bound) as (records & Hscan & H2).
    exists bound, records. split; [reflexivity|].
    split; [|split; [by rewrite Hscan | exact H2]].
    intros fuel. unfold Streams.get_records, get_starting_replication_key_value.
    by rewrite Hm, Hs, Hq, Hscan.
Qed.

Lemma get_records_incremental self state fuel log start :
  replication_method self = REPLICATION_INCREMENTAL ->
  starting_id self state = (log, inr (whole start)) ->
  exists records,
    get_records self state fuel
      = {| yielded := records; effects := log ++ [Find start]; ending := Returned |}
    /\ Forall2 emitted_for records (find_gt_sorted (_collection self) start).
Proof.
  intros Hm Hs.
  destruct (get_records_incremental_any self state log (whole start) Hm Hs)
    as [(e & Hq & _) | (bound & records & Hq & Hg & _ & H2)];
    rewrite query_bound_whole in *; cbn in *; [discriminate|].
  injection Hq as <-. exists records. by rewrite Hg.
Qed.

(** C1. In Incremental mode, from every starting position [S] (the parsed
    bookmark when there is one, otherwise the identifier of the configured
    start_date), get_records returns after yielding, in ascending identifier
    order, exactly the source documents whose identifier is strictly greater
    than [S]; each is emitted as a record whose [_id] is the identifier as
    text and whose [document] is the whole source document. *)
Theorem get_records_incremental_scan self state S fuel :
  replication_method self = REPLICATION_INCREMENTAL ->
  starts_at self state S ->
  let g := get_records self state fuel in
  ending g = Returned
  /\ exists docs,
       docs ≡ₚ List.filter (matches_gt (Some S)) (documents (_collection self))
       /\ (forall doc,
             doc ∈ docs <->
             doc ∈ documents (_collection self)
             /\ exists o, doc !! "_id" = Some (VObjectId o)
                          /\ (Bson.to_N S < Bson.to_N o)%N)
       /\ StronglySorted id_le docs
       /\ Forall2 emitted_for (yielded g) docs.
Proof.
  intros Hm Hs g.
  pose proof (starting_id_starts_at self state S Hs) as Hstart.
  destruct (starting_id self state) as [log r] eqn:E. cbn in Hstart. subst r.
  destruct (get_records_incremental self state fuel log (Some S) Hm E)
    as (records & Hg & H2).
  subst g. rewrite Hg. split; [reflexivity|].
  exists (find_gt_sorted (_collection self) (Some S)).
  split; [apply find_gt_sorted_perm|].
  split; [apply find_gt_sorted_elem|].
  split; [apply find_gt_sorted_sorted | exact H2].
Qed.

(** ** The tailing loop *)

Lemma excluded_skipped metadata n allowlist record :
  excluded allowlist record ->
  log_based_record metadata n allowlist record = inr None.
Proof.
  intros (op & Hop & Hnot). unfold Streams.log_based_record, getitem.
  rewrite Hop. cbn. by rewrite bool_decide_eq_false_2.
Qed.

(** One iteration on an empty poll before any record was yielded: the loop
    goes on to the next poll in the same state. *)
Lemma drain_first_gap fuel cs metadata allowlist n :
  alive cs n = true -> try_next cs n = None ->
  drain (S fuel) cs metadata allowlist n false true
  = drain fuel cs metadata allowlist (S n) false true.
Proof. intros Ha Hp. cbn [Streams.drain]. rewrite Ha, Hp. reflexivity. Qed.

(** One iteration on an empty poll after a record was yielded: the loop
    clears [keep_open] and is left. *)
Lemma drain_later_gap fuel cs metadata allowlist n :
  alive cs n = true -> try_next cs n = None ->
  drain (S fuel) cs metadata allowlist n true true = ([], Returned).
Proof.
  intros Ha Hp. cbn [Streams.drain]. rewrite Ha, Hp. cbn.
  destruct fuel; cbn; by rewrite andb_false_r.
Qed.

(** One iteration on an event that is yielded: the loop goes on with the
    has-seen-a-record flag set. *)
Lemma drain_yield fuel cs metadata allowlist n seen record r :
  alive cs n = true -> try_next cs n = Some record ->
  log_based_record metadata n allowlist record = inr (Some r) ->
  drain (S fuel) cs metadata allowlist n seen true
  = (r :: fst (drain fuel cs metadata allowlist (S n) true true),
     snd (drain fuel cs metadata allowlist (S n) true true)).
Proof.
  intros Ha Hp Hr. cbn [Streams.drain]. rewrite Ha, Hp, Hr. cbn.
  by destruct (drain fuel cs metadata allowlist (S n) true true).
Qed.

(** One iteration on an excluded event: the loop goes on to the next poll
    with both flags as they were and nothing yielded. *)
Lemma drain_excluded fuel cs metadata allowlist n seen keep_open record :
  alive cs n = true -> keep_open = true ->
  try_next cs n = Some record -> excluded allowlist record ->
  drain (S fuel) cs metadata allowlist n seen keep_open
  = drain fuel cs metadata allowlist (S n) seen keep_open.
Proof.
  intros Ha -> Hp Hex. cbn [Streams.drain].
  rewrite Ha, Hp, (excluded_skipped _ _ _ _ Hex). reflexivity.
Qed.

(** With only idle polls and nothing yielded yet, the loop is still running
    however long it is observed. *)
Lemma drain_idle_running cs metadata allowlist :
  (forall k, alive cs k = true) ->
  (forall k, idle_poll allowlist (try_next cs k)) ->
  forall fuel n, drain fuel cs metadata allowlist n false true = ([], Running).
Proof.
  intros Ha Hidle fuel. induction fuel as [|fuel IH]; intros n.
  - cbn. by rewrite Ha.
  - specialize (Hidle n). destruct (try_next cs n) as [[record|]|e] eqn:Hp.
    + rewrite (drain_excluded fuel cs metadata allowlist n false true record);
        auto.
    + rewrite drain_first_gap; auto.
    + destruct Hidle.
Qed.

Lemma log_based_record_allowed metadata n allowlist record r :
  log_based_record metadata n allowlist record = inr (Some r) ->
  exists op, record !! "operationType" = Some (VStr op)
             /\ op ∈ allowlist
             /\ r !! "operationType" = Some (VStr op).
Proof.
  unfold Streams.log_based_record, getitem, mbind, exn_bind, mret, exn_ret.
  destruct (record !! "operationType") as [operation_type|]; [|discriminate].
  destruct operation_type as [| | |op| | |]; cbn; try discriminate.
  destruct (bool_decide (op ∈ allowlist)) eqn:Hin; cbn; [|discriminate].
  apply bool_decide_eq_true in Hin.
  destruct (record !! "clusterTime") as [ct|]; [|discriminate].
  destruct (as_datetime ct) as [|time]; [discriminate|].
  destruct (record !! "_id") as [id|]; [|discriminate].
  destruct (subscript id "_data") as [|data]; [discriminate|].
  destruct (record !! "fullDocument") as [document|]; [|discriminate].
  destruct (record !! "ns") as [ns|]; [|discriminate].
  intros [= <-]. exists op. split; [reflexivity|]. split; [exact Hin|].
  destruct metadata; [destruct (String.eqb op "delete")|]; by simplify_map_eq.
Qed.

Lemma drain_yields_allowed cs metadata allowlist fuel :
  forall n seen keep_open,
    Forall (from_allowed_event cs metadata allowlist)
      (fst (drain fuel cs metadata allowlist n seen keep_open)).
Proof.
  induction fuel as [|fuel IH]; intros n seen keep_open; cbn [Streams.drain].
  - destruct (negb (alive cs n && keep_open)); constructor.
  - destruct (negb (alive cs n && keep_open)); [constructor|].
    destruct (try_next cs n) as [[record|]|e] eqn:Hp; [|apply IH|constructor].
    destruct (log_based_record metadata n allowlist record) as [e|[r|]] eqn:Hr;
      [constructor | | apply IH].
    specialize (IH (S n) true
      (if bool_decide (Some record = None) && seen then false else keep_open)).
    destruct (drain fuel cs metadata allowlist (S n) true _) as [rest s].
    cbn in *. constructor; [|exact IH].
    destruct (log_based_record_allowed _ _ _ _ _ Hr) as (op & H1 & H2 & H3).
    exists n, record, op. auto.
Qed.

(** C6. In LogBased mode, a polled event whose operationType is not in the
    allow-list is normalized to nothing; the iteration that polls it yields
    nothing and leaves the has-seen-a-record flag as it was; every record of
    the output comes from an event whose operationType is in the allow-list;
    and an invocation that only sees such events and empty polls does not
    close. *)
Theorem excluded_event_discarded cs metadata allowlist :
  (forall n record, excluded allowlist record ->
     log_based_record metadata n allowlist record = inr None)
  /\ (forall fuel n seen record,
        alive cs n = true -> try_next cs n = Some record ->
        excluded allowlist record ->
        drain (S fuel) cs metadata allowlist n seen true
        = drain fuel cs metadata allowlist (S n) seen true)
  /\ (forall fuel n seen keep_open,
        Forall (from_allowed_event cs metadata allowlist)
          (fst (drain fuel cs metadata allowlist n seen keep_open)))
  /\ ((forall k, alive cs k = true) ->
      (forall k, idle_poll allowlist (try_next cs k)) ->
      forall fuel n, drain fuel cs metadata allowlist n false true = ([], Running)).
Proof.
  split; [intros; by apply excluded_skipped|].
  split; [intros; by eapply drain_excluded|].
  split; [intros; apply drain_yields_allowed|].
  apply drain_idle_running.
Qed.

(** C10. In LogBased mode with the operation_types option absent,
    get_records raises while building the allow-list: nothing is yielded and
    no change stream is opened (no effect at all precedes the error). *)
Theorem get_records_no_operation_types self state fuel :
  replication_method self = REPLICATION_LOG_BASED ->
  operation_types (config self) = None ->
  get_records self state fuel
  = {| yielded := []; effects := [];
       ending := Raised (TypeError "'NoneType' object is not iterable") |}.
Proof.
  intros Hm Hops. unfold Streams.get_records. rewrite Hm, Hops.
  reflexivity.
Qed.

End StreamFacts.

(** ** The bookmark store *)

Lemma str_lt_asym (a b : string) : str_lt a b = true -> str_lt b a = false.
Proof.
  unfold str_lt, String.ltb. rewrite (String.compare_antisym b a).
  destruct (String.compare a b); cbn; congruence.
Qed.

Lemma supported_method_true (m : string) :
  supported_method m = true
  <-> m = REPLICATION_INCREMENTAL \/ m = REPLICATION_LOG_BASED.
Proof.
  unfold supported_method. rewrite orb_true_iff, !String.eqb_eq. tauto.
Qed.

Lemma supported_method_false (m : string) :
  supported_method m = false
  <-> m <> REPLICATION_INCREMENTAL /\ m <> REPLICATION_LOG_BASED.
Proof.
  unfold supported_method. rewrite orb_false_iff, !String.eqb_neq. tauto.
Qed.

(** Lines 84-87 never change the flag: it is [is_sorted], whatever the state
    partitioning keys are. *)
Lemma treat_as_sorted_is_sorted (self : CollectionStream) :
  treat_as_sorted self = is_sorted self.
Proof. unfold treat_as_sorted. by destruct (is_sorted self), (bool_decide _). Qed.

Lemma increment_configured self key record state :
  configured self key ->
  _increment_stream_state self record state
  = let '(st, e) := increment_state state key record (is_sorted self)
                      (check_sorted self) in
    {| state_after := st; logged := []; raised := e |}.
Proof.
  intros (Hm & Hk & Hne). unfold _increment_stream_state.
  apply supported_method_true in Hm. rewrite Hm, Hk, treat_as_sorted_is_sorted.
  destruct key; [done | reflexivity].
Qed.

Lemma increment_accepts self key record v state :
  configured self key -> carries key record v ->
  is_sorted self = false \/ not_after state v ->
  _increment_stream_state self record state
  = {| state_after := Some v; logged := []; raised := None |}.
Proof.
  intros Hc Hv Hok. rewrite (increment_configured self key record state Hc).
  unfold increment_state. rewrite Hv.
  destruct state as [stored|]; [|reflexivity].
  destruct Hok as [-> | Hok]; [reflexivity|].
  rewrite (Hok stored eq_refl), andb_false_r. reflexivity.
Qed.

Lemma increment_rejects self key record v stored :
  configured self key -> carries key record v ->
  is_sorted self = true -> str_lt v stored = true ->
  _increment_stream_state self record (Some stored)
  = {| state_after := Some stored; logged := [];
       raised := Some (InvalidStreamSortException v stored) |}.
Proof.
  intros Hc Hv Hs Hlt. rewrite (increment_configured self key record _ Hc).
  unfold increment_state. rewrite Hv, Hs, Hlt. reflexivity.
Qed.

Lemma advance_all_increasing self key records values :
  configured self key ->
  Forall2 (carries key) records values ->
  Sorted (fun a b => str_lt a b = true) values ->
  forall state v0,
    head values = Some v0 -> not_after state v0 ->
    advance_all self records state = (last values, None).
Proof.
  intros Hc H2. induction H2 as [|record v records values Hv H2 IH];
    intros Hsorted state v0 Hhead Hstate; [discriminate|].
  injection Hhead as ->. cbn [advance_all].
  rewrite (increment_accepts self key record v0 state Hc Hv (or_intror Hstate)).
  cbn [raised state_after].
  inversion Hsorted as [|? ? Hsorted' Hhd]; subst.
  destruct H2 as [|record' v' records' values' Hv' H2'].
  - reflexivity.
  - rewrite (IH Hsorted' (Some v0) v' eq_refl); [reflexivity|].
    intros stored [= <-]. inversion Hhd; subst. by apply str_lt_asym.
Qed.

(** C3. On a sorted stream ([is_sorted] true) that passes the configuration
    checks, a sequence of _increment_stream_state calls whose replication-key
    values are strictly increasing (from a store that is absent or not
    greater than the first value) leaves the last value as the stored
    bookmark; a call whose value is less than the stored bookmark raises the
    out-of-order error and leaves the stored bookmark as it was. *)
Theorem sorted_stream_bookmark self key :
  configured self key ->
  is_sorted self = true ->
  (forall records values state v0,
     Forall2 (carries key) records values ->
     Sorted (fun a b => str_lt a b = true) values ->
     head values = Some v0 -> not_after state v0 ->
     advance_all self records state = (last values, None))
  /\ (forall record v stored,
        carries key record v -> str_lt v stored = true ->
        _increment_stream_state self record (Some stored)
        = {| state_after := Some stored; logged := [];
             raised := Some (InvalidStreamSortException v stored) |}).
Proof.
  intros Hc Hs. split.
  - intros records values state v0 H2 Hsorted Hhead Hstate.
    by apply (advance_all_increasing self key records values Hc H2 Hsorted state v0).
  - intros record v stored Hv Hlt. by apply (increment_rejects self key).
Qed.

(** ** Resuming the ordered scan *)

Lemma increment_success self key record v state :
  configured self key -> carries key record v ->
  raised (_increment_stream_state self record state) = None ->
  state_after (_increment_stream_state self record state) = Some v.
Proof.
  intros Hc Hv. rewrite (increment_configured self key record state Hc).
  unfold increment_state. rewrite Hv.
  destruct state as [stored|]; [|reflexivity].
  by destruct (is_sorted self && str_lt v stored).
Qed.

Lemma emitted_carries r doc :
  emitted_for r doc ->
  exists o, doc !! "_id" = Some (VObjectId o) /\ carries "_id" r (Bson.str o).
Proof. intros (o & Hd & Hr & _). by exists o. Qed.

(** After a sync over the records of an ascending scan, the bookmark is the
    one the sync started with when the scan was empty, and otherwise the text
    of the identifier of a document that no document of the scan exceeds. *)
Lemma advance_all_scan self records docs :
  configured self "_id" ->
  Forall2 emitted_for records docs ->
  StronglySorted id_le docs ->
  forall state st',
    advance_all self records state = (st', None) ->
    (docs = [] /\ st' = state)
    \/ exists doc o,
         doc ∈ docs /\ doc !! "_id" = Some (VObjectId o)
         /\ st' = Some (Bson.str o)
         /\ Forall (fun doc' => id_le doc' doc) docs.
Proof.
  intros Hc H2. induction H2 as [|r doc records docs Hem H2 IH];
    intros Hsorted state st' Hrun; [left; cbn in Hrun; split; congruence|].
  right. cbn [advance_all] in Hrun.
  destruct (emitted_carries r doc Hem) as (o & Hdoc & Hcar).
  destruct (raised (_increment_stream_state self r state)) eqn:Hr; [congruence|].
  rewrite (increment_success self "_id" r _ state Hc Hcar Hr) in Hrun.
  inversion Hsorted as [|? ? Hsorted' Hhd]; subst.
  destruct (IH Hsorted' _ _ Hrun) as [[-> ->] | (doc2 & o2 & Hin & Hd2 & -> & Hmax)].
  - exists doc, o. repeat split; [left | exact Hdoc|].
    constructor; [unfold id_le; lia | constructor].
  - exists doc2, o2. repeat split; [by right | exact Hd2|].
    constructor; [|exact Hmax].
    rewrite Forall_forall in Hhd. by apply Hhd.
Qed.

Lemma filter_nil {A} (f : A -> bool) (l : list A) :
  (forall x, x ∈ l -> f x = false) -> List.filter f l = [].
Proof.
  induction l as [|a l IH]; intros H; [reflexivity|]. cbn.
  rewrite (H a) by left. apply IH. intros x Hx. apply H. by right.
Qed.

(** No document lies beyond a maximal document of the scan from [start]. *)
Lemma find_gt_sorted_beyond_max (c : Collection) start doc o :
  doc ∈ find_gt_sorted c start ->
  doc !! "_id" = Some (VObjectId o) ->
  Forall (fun doc' => id_le doc' doc) (find_gt_sorted c start) ->
  find_gt_sorted c (Some o) = [].
Proof.
  intros Hin Hdoc Hmax. unfold find_gt_sorted at 1.
  rewrite filter_nil; [reflexivity|].
  intros d Hd. destruct (matches_gt (Some o) d) eqn:Hgt; [exfalso | reflexivity].
  pose proof (find_gt_sorted_matches c start) as Hall.
  rewrite Forall_forall in Hall, Hmax.
  destruct (matches_gt_inv _ _ (Hall doc Hin)) as (b & o' & -> & Ho' & Hlt).
  rewrite Hdoc in Ho'. injection Ho' as <-.
  apply matches_gt_sort_key in Hgt as [Hid Hkey].
  assert (Hd' : d ∈ find_gt_sorted c (Some b)).
  { rewrite find_gt_sorted_perm. apply list_elem_of_In, filter_In.
    split; [by apply list_elem_of_In|].
    apply matches_gt_sort_key. split; [exact Hid | lia]. }
  specialize (Hmax d Hd'). unfold id_le, sort_key at 2 in Hmax.
  rewrite Hdoc in Hmax. lia.
Qed.

Section Resume.

Variable strptime_to_utc : string -> exn + Z.
Variable isoformat : Z -> string.
Variable utcnow_isoformat : nat -> string.

Local Abbreviation starting_id := (starting_id strptime_to_utc).
Local Abbreviation get_records := (get_records strptime_to_utc isoformat utcnow_isoformat).

Lemma starting_id_str self o :
  starting_id self (Some (Bson.str o)) = ([], inr (whole (Some o))).
Proof.
  unfold Streams.starting_id.
  destruct (BsonFacts.str_nonempty o) as (c & s & Hs).
  rewrite BsonFacts.parse_str. by rewrite Hs.
Qed.

(** C8. In Incremental mode, over a fixed collection, when the records
    yielded by get_records have all been reported to the bookmark store, a
    re-run of get_records from the resulting bookmark yields no record (and
    returns like the first run did). *)
Theorem incremental_rerun_empty self state fuel fuel' st' :
  replication_method self = REPLICATION_INCREMENTAL ->
  replication_key self = Some "_id" ->
  advance_all self (yielded (get_records self state fuel)) state = (st', None) ->
  yielded (get_records self st' fuel') = []
  /\ (ending (get_records self state fuel) = Returned ->
      ending (get_records self st' fuel') = Returned).
Proof.
  intros Hm Hk Hrun.
  assert (Hc : configured self "_id") by (repeat split; auto; discriminate).
  destruct (starting_id self state) as [log [e|start]] eqn:Hstart.
  - assert (Hg : forall n, get_records self state n
               = {| yielded := []; effects := log; ending := Raised e |}).
    { intros n. unfold Streams.get_records, get_starting_replication_key_value.
      rewrite Hm. cbn [String.eqb REPLICATION_INCREMENTAL].
      replace (String.eqb "INCREMENTAL" "INCREMENTAL") with true by reflexivity.
      by rewrite Hstart. }
    rewrite Hg in Hrun. injection Hrun as <-.
    rewrite !Hg. split; [reflexivity | discriminate].
  - destruct (get_records_incremental_any strptime_to_utc isoformat
                utcnow_isoformat self state log start Hm Hstart)
      as [(e & _ & Hg) | (bound & records & _ & Hg & _ & H2)].
    { rewrite Hg in Hrun. injection Hrun as <-.
      rewrite !Hg. split; [reflexivity | discriminate]. }
    rewrite Hg in Hrun |- *. cbn [yielded ending] in *.
    destruct (advance_all_scan self records _ Hc H2
                (find_gt_sorted_sorted _ _) state st' Hrun)
      as [[Hnil ->] | (doc & o & Hin & Hdoc & -> & Hmax)].
    + rewrite Hg. rewrite Hnil in H2. inversion H2. by split.
    + destruct (get_records_incremental strptime_to_utc isoformat utcnow_isoformat
                  self (Some (Bson.str o)) fuel' [] (Some o) Hm (starting_id_str self o))
        as (records' & Hg' & H2').
      rewrite Hg'.
      rewrite (find_gt_sorted_beyond_max _ bound doc o Hin Hdoc Hmax) in H2'.
      inversion H2'. by split.
Qed.

End Resume.


(** ** Configuration errors of the bookmark update *)

(** The claim "fails with a missing-replication-key error for every stream
    with no configured replication key" does not hold as stated: a stream
    with no replication key whose replication method is unsupported fails
    with the unsupported-method error, which is checked first. *)
Lemma keyless_unsupported_stream_reports_method :
  replication_key Sample.full_table_keyless = None
  /\ raised (_increment_stream_state Sample.full_table_keyless ∅ None)
     = Some (ValueError (unrecognized_method_msg Sample.full_table_keyless))
  /\ raised (_increment_stream_state Sample.full_table_keyless ∅ None)
     <> Some (ValueError (missing_key_msg Sample.full_table_keyless)).
Proof. split; [reflexivity|]. split; [reflexivity|]. by vm_compute. Qed.

(** C9 (amended). _increment_stream_state fails with the
    unsupported-replication-method error for every stream whose replication
    method is outside {Incremental, LogBased}, and with the
    missing-replication-key error for every stream whose replication method
    is one of the two and that has no (or an empty) replication key; in both
    cases the stored bookmark is as it was before the call. *)
Theorem increment_stream_state_config_errors self latest_record state_dict :
  (replication_method self <> REPLICATION_INCREMENTAL ->
   replication_method self <> REPLICATION_LOG_BASED ->
   _increment_stream_state self latest_record state_dict
   = {| state_after := state_dict;
        logged := [LogCritical (unrecognized_method_msg self)];
        raised := Some (ValueError (unrecognized_method_msg self)) |})
  /\ (replication_method self = REPLICATION_INCREMENTAL
      \/ replication_method self = REPLICATION_LOG_BASED ->
      replication_key self = None \/ replication_key self = Some EmptyString ->
      _increment_stream_state self latest_record state_dict
      = {| state_after := state_dict; logged := [];
           raised := Some (ValueError (missing_key_msg self)) |}).
Proof.
  unfold _increment_stream_state. split.
  - intros H1 H2.
    by rewrite (proj2 (supported_method_false _) (conj H1 H2)).
  - intros Hm Hk. rewrite (proj2 (supported_method_true _) Hm).
    by destruct Hk as [-> | ->].
Qed.

Lemma increment_stream_state_config_errors_witness :
  _increment_stream_state Sample.full_table_keyless ∅ (Some "6553f1000000000000000002")
  = {| state_after := Some "6553f1000000000000000002";
       logged := [LogCritical (unrecognized_method_msg Sample.full_table_keyless)];
       raised := Some (ValueError (unrecognized_method_msg Sample.full_table_keyless)) |}
  /\ _increment_stream_state Sample.incremental_keyless ∅ (Some "6553f1000000000000000002")
     = {| state_after := Some "6553f1000000000000000002"; logged := [];
          raised := Some (ValueError (missing_key_msg Sample.incremental_keyless)) |}.
Proof.
  split.
  - apply (proj1 (increment_stream_state_config_errors
                    Sample.full_table_keyless ∅ (Some "6553f1000000000000000002")));
      discriminate.
  - apply (proj2 (increment_stream_state_config_errors
                    Sample.incremental_keyless ∅ (Some "6553f1000000000000000002")));
      left; reflexivity.
Defined.

(** ** Streams with state partitioning keys *)


(** ** Unparseable bookmarks *)

Lemma starting_id_unparseable strptime_to_utc self c bookmark :
  Bson.parse (String c bookmark) = None ->
  starting_id strptime_to_utc self (Some (String c bookmark))
  = ([LogWarning ("Replication key value " +:+ String c bookmark
                  +:+ " cannot be parsed into ObjectId.")],
     inr None).
Proof. intros H. unfold starting_id. by rewrite H. Qed.

(** C4 (what the code does). With the bookmark ["not-an-objectid"], which is
    no ObjectId, get_records logs the warning and does not raise, but it does
    not fall back to the start_date: the scan is asked for the identifiers
    greater than null and yields nothing, where the run without a bookmark
    starts from the ObjectId of 1970-01-01 and yields the three documents. *)
Theorem unparseable_bookmark_no_fallback :
  Bson.parse "not-an-objectid" = None
  /\ Sample.run Sample.incremental (Some "not-an-objectid") 0
     = {| yielded := [];
          effects := [LogWarning "Replication key value not-an-objectid cannot be parsed into ObjectId.";
                      Find None];
          ending := Returned |}
  /\ effects (Sample.run Sample.incremental None 0)
     = [LogInfo "using start_date_str: 1970-01-01";
        Find (Some (OID x00 x00 x00 x00 x00 x00 x00 x00 x00 x00 x00 x00))]
  /\ Sample.ids (yielded (Sample.run Sample.incremental None 0))
     = [Some (VStr "6553f1000000000000000001");
        Some (VStr "6553f1000000000000000002");
        Some (VStr "6553f1000000000000000003")].
Proof. repeat split. Qed.

(** ** Delete events *)

(** An event that has all the fields the normalization reads is yielded with
    them. *)
Lemma log_based_record_complete isoformat utcnow_isoformat n allowlist record
    op time token data document ns :
  record !! "operationType" = Some (VStr op) -> op ∈ allowlist ->
  record !! "clusterTime" = Some (VTimestamp time) ->
  record !! "_id" = Some (VDict token) -> token !! "_data" = Some data ->
  record !! "fullDocument" = Some document ->
  record !! "ns" = Some ns ->
  exists r,
    log_based_record isoformat utcnow_isoformat false n allowlist record
    = inr (Some r)
    /\ r !! "_id" = Some data /\ r !! "document" = Some document
    /\ r !! "operationType" = Some (VStr op)
    /\ r !! "clusterTime" = Some (VStr (isoformat time))
    /\ r !! "ns" = Some ns.
Proof.
  intros Hop Hin Hct Hid Hdata Hdoc Hns.
  unfold log_based_record, getitem, mbind, exn_bind, mret, exn_ret.
  rewrite Hop. cbn. rewrite (bool_decide_eq_true_2 _ Hin). cbn.
  rewrite Hct, Hid. cbn. unfold getitem. rewrite Hdata, Hdoc, Hns.
  eexists. split; [reflexivity|]. by simplify_map_eq.
Qed.

(** C7 (what the code does). A delete event has no [fullDocument]: with
    "delete" in the allow-list its normalization raises [KeyError], and so
    does the invocation that polls it. *)
Theorem delete_event_not_normalized :
  Sample.delete_event !! "fullDocument" = None
  /\ log_based_record Sample.isoformat Sample.utcnow_isoformat false 0
       ["insert"; "delete"] Sample.delete_event
     = inl (KeyError "fullDocument")
  /\ Sample.run
       (Sample.stream "LOG_BASED" (Some ["insert"; "delete"])
          [Some Sample.delete_event; None])
       None 5
     = {| yielded := [];
          effects := [Watch "updateLookup" None; CloseChangeStream];
          ending := Raised (KeyError "fullDocument") |}.
Proof. repeat split. Qed.

(** ** The theorems at concrete runs *)

Lemma get_records_incremental_scan_witness :
  let g := Sample.run Sample.incremental None 0 in
  ending g = Returned
  /\ exists docs,
       docs ≡ₚ List.filter
                 (matches_gt (Some (OID x00 x00 x00 x00 x00 x00 x00 x00 x00 x00 x00 x00)))
                 (documents (_collection Sample.incremental))
       /\ (forall doc,
             doc ∈ docs <->
             doc ∈ documents (_collection Sample.incremental)
             /\ exists o, doc !! "_id" = Some (VObjectId o)
                          /\ (Bson.to_N (OID x00 x00 x00 x00 x00 x00 x00 x00 x00 x00 x00 x00)
                              < Bson.to_N o)%N)
       /\ StronglySorted id_le docs
       /\ Forall2 emitted_for (yielded g) docs.
Proof.
  apply (get_records_incremental_scan Sample.strptime_to_utc Sample.isoformat
           Sample.utcnow_isoformat Sample.incremental None
           (OID x00 x00 x00 x00 x00 x00 x00 x00 x00 x00 x00 x00) 0).
  - reflexivity.
  - right. split; [reflexivity|]. exists 0%Z. split; reflexivity.
Defined.

(** Scenario A: no bookmark, start_date 1970-01-01, three documents. *)
Example scenario_A :
  Sample.ids (yielded (Sample.run Sample.incremental None 0))
  = [Some (VStr (Bson.str Sample.I1)); Some (VStr (Bson.str Sample.I2));
     Some (VStr (Bson.str Sample.I3))].
Proof. reflexivity. Qed.

(** Scenario B: the bookmark is I2. *)
Example scenario_B :
  Sample.ids (yielded (Sample.run Sample.incremental
                         (Some (Bson.str Sample.I2)) 0))
  = [Some (VStr (Bson.str Sample.I3))].
Proof. reflexivity. Qed.

(** Scenario C: a delete then an insert, with inserts and updates allowed. *)
Example scenario_C :
  Sample.run
    (Sample.stream "LOG_BASED" (Some ["insert"; "update"])
       [Some Sample.delete_event; Some Sample.insert_event; None])
    None 5
  = {| yielded :=
         [ {[ "_id" := VStr "8265537DA0000000012B0229296E04";
              "document" := VDict (Sample.order Sample.I1 "tea");
              "operationType" := VStr "insert";
              "clusterTime" := VStr "2023-11-14T22:13:20+00:00";
              "ns" := Sample.namespace ]} ];
       effects := [Watch "updateLookup" None; CloseChangeStream];
       ending := Returned |}.
Proof. vm_compute. reflexivity. Qed.


Lemma excluded_event_discarded_witness :
  log_based_record Sample.isoformat Sample.utcnow_isoformat false 0
    ["insert"; "update"] Sample.delete_event
  = inr None
  /\ forall fuel,
       drain Sample.isoformat Sample.utcnow_isoformat fuel
         (Sample.scripted [Some Sample.delete_event]) false ["insert"; "update"]
         0 false true
       = ([], Running).
Proof.
  assert (Hex : excluded ["insert"; "update"] Sample.delete_event).
  { exists "delete". split; [reflexivity|].
    intros H. repeat (apply elem_of_cons in H as [H|H]; [discriminate|]).
    by apply elem_of_nil in H. }
  split.
  - by apply (proj1 (excluded_event_discarded Sample.isoformat
                       Sample.utcnow_isoformat (Sample.scripted []) false
                       ["insert"; "update"])).
  - intros fuel.
    apply (proj2 (proj2 (proj2
             (excluded_event_discarded Sample.isoformat Sample.utcnow_isoformat
                (Sample.scripted [Some Sample.delete_event]) false
                ["insert"; "update"])))).
    + reflexivity.
    + intros [|k]; [exact Hex | by destruct k].
Defined.

Lemma get_records_no_operation_types_witness :
  Sample.run (Sample.stream "LOG_BASED" None [Some Sample.insert_event]) None 5
  = {| yielded := []; effects := [];
       ending := Raised (TypeError "'NoneType' object is not iterable") |}.
Proof.
  apply (get_records_no_operation_types Sample.strptime_to_utc Sample.isoformat
           Sample.utcnow_isoformat); reflexivity.
Defined.

Lemma sorted_stream_bookmark_witness :
  advance_all Sample.sorted
    [ {[ "_id" := VStr "6553f1000000000000000001" ]};
      {[ "_id" := VStr "6553f1000000000000000002" ]} ] None
  = (Some "6553f1000000000000000002", None)
  /\ _increment_stream_state Sample.sorted
       {[ "_id" := VStr "6553f1000000000000000001" ]}
       (Some "6553f1000000000000000002")
     = {| state_after := Some "6553f1000000000000000002"; logged := [];
          raised := Some (InvalidStreamSortException
                            "6553f1000000000000000001"
                            "6553f1000000000000000002") |}.
Proof.
  assert (Hc : configured Sample.sorted "_id")
    by (split; [left; reflexivity | split; [reflexivity | discriminate]]).
  split.
  - apply (proj1 (sorted_stream_bookmark Sample.sorted "_id" Hc eq_refl)
             _ ["6553f1000000000000000001"; "6553f1000000000000000002"]
             None "6553f1000000000000000001").
    + repeat constructor.
    + repeat constructor.
    + reflexivity.
    + intros stored [=].
  - apply (proj2 (sorted_stream_bookmark Sample.sorted "_id" Hc eq_refl));
      reflexivity.
Defined.

Lemma incremental_rerun_empty_witness :
  yielded (Sample.run Sample.incremental (Some "6553f1000000000000000003") 0) = []
  /\ (ending (Sample.run Sample.incremental None 0) = Returned ->
      ending (Sample.run Sample.incremental (Some "6553f1000000000000000003") 0)
      = Returned).
Proof.
  apply (incremental_rerun_empty Sample.strptime_to_utc Sample.isoformat
           Sample.utcnow_isoformat Sample.incremental None 0 0
           (Some "6553f1000000000000000003")); reflexivity.
Defined.

(** * Further properties of the stream *)

Section Modes.

Variable strptime_to_utc : string -> exn + Z.
Variable isoformat : Z -> string.
Variable utcnow_isoformat : nat -> string.

Local Abbreviation starting_id := (starting_id strptime_to_utc).
Local Abbreviation scan := (scan utcnow_isoformat).
Local Abbreviation incremental_record := (incremental_record utcnow_isoformat).
Local Abbreviation log_based_record := (log_based_record isoformat utcnow_isoformat).
Local Abbreviation drain := (drain isoformat utcnow_isoformat).
Local Abbreviation get_records := (get_records strptime_to_utc isoformat utcnow_isoformat).
Local Abbreviation emitted := (emitted_at isoformat utcnow_isoformat).

Lemma get_records_incremental_eq self state fuel :
  replication_method self = REPLICATION_INCREMENTAL ->
  get_records self state fuel
  = match starting_id self state with
    | (log, inl e) => {| yielded := []; effects := log; ending := Raised e |}
    | (log, inr start_date) =>
        match query_bound (_collection self) start_date with
        | (asked, inl e) =>
            {| yielded := []; effects := log ++ [asked]; ending := Raised e |}
        | (asked, inr bound) =>
            let '(records, s) :=
              scan (should_add_metadata self) 0
                (find_gt_sorted (_collection self) bound) in
            {| yielded := records; effects := log ++ [asked]; ending := s |}
        end
    end.
Proof.
  intros Hm. unfold Streams.get_records, get_starting_replication_key_value.
  rewrite Hm. reflexivity.
Qed.

Lemma get_records_log_based_eq self state fuel allowlist cs :
  replication_method self = REPLICATION_LOG_BASED ->
  operation_types (config self) = Some allowlist ->
  watch (_collection self) "updateLookup" state = inr cs ->
  get_records self state fuel
  = let '(records, s) :=
      drain fuel cs (should_add_metadata self) allowlist 0 false true in
    {| yielded := records;
       effects := [Watch "updateLookup" state] ++ released s; ending := s |}.
Proof.
  intros Hm Hops Hw. unfold Streams.get_records, get_starting_replication_key_value.
  rewrite Hm, Hops, Hw. reflexivity.
Qed.

(** X1. An empty-string bookmark is no bookmark for the ordered scan: in
    Incremental mode get_records behaves on it exactly as on an absent
    bookmark (it starts from the start_date). In LogBased mode the empty
    string is handed to the change stream as the resume token. *)
Theorem empty_bookmark self fuel :
  (replication_method self = REPLICATION_INCREMENTAL ->
   get_records self (Some EmptyString) fuel = get_records self None fuel)
  /\ (forall allowlist,
        replication_method self = REPLICATION_LOG_BASED ->
        operation_types (config self) = Some allowlist ->
        head (effects (get_records self (Some EmptyString) fuel))
        = Some (Watch "updateLookup" (Some EmptyString))).
Proof.
  split.
  - intros Hm. by rewrite !get_records_incremental_eq.
  - intros allowlist Hm Hops.
    unfold Streams.get_records, get_starting_replication_key_value.
    rewrite Hm, Hops. cbn.
    destruct (watch _ _ _) as [e|cs]; [reflexivity|].
    by destruct (drain _ _ _ _ _ _ _).
Qed.

(** X2. With a replication method other than the two supported ones,
    get_records yields nothing, queries nothing and opens no change stream:
    it logs the critical message and raises it as a ValueError, the same
    error that _increment_stream_state raises for the stream. *)
Theorem get_records_unsupported_method self state fuel latest_record state_dict :
  replication_method self <> REPLICATION_INCREMENTAL ->
  replication_method self <> REPLICATION_LOG_BASED ->
  get_records self state fuel
  = {| yielded := [];
       effects := [LogCritical (unrecognized_method_msg self)];
       ending := Raised (ValueError (unrecognized_method_msg self)) |}
  /\ raised (_increment_stream_state self latest_record state_dict)
     = Some (ValueError (unrecognized_method_msg self)).
Proof.
  intros H1 H2. split.
  - unfold Streams.get_records.
    apply String.eqb_neq in H1, H2. by rewrite H1, H2.
  - unfold _increment_stream_state.
    by rewrite (proj2 (supported_method_false _) (conj H1 H2)).
Qed.

(** X3. An Incremental run asks for exactly one query, after at most one log
    line, unless the conversion of the start_date fails. With a non-empty
    bookmark the start_date is not read: a bookmark that ObjectId accepts is
    queried from, without any log line (also when whitespace in it left the
    object with fewer than twelve bytes), and one that ObjectId refuses is
    warned about and the query is made with a null bound. Without a bookmark
    (or with an empty one) the start_date is logged, and when its conversion
    fails the run raises that error with no query made and nothing
    yielded. *)
Theorem incremental_one_query self state fuel :
  replication_method self = REPLICATION_INCREMENTAL ->
  let g := get_records self state fuel in
  let start_date_str := default "1970-01-01" (start_date (config self)) in
  let info := LogInfo ("using start_date_str: " +:+ start_date_str) in
  (forall c b o,
     state = Some (String c b) -> Bson.parse (String c b) = Some (Whole o) ->
     effects g = [Find (Some o)])
  /\ (forall c b bs,
        state = Some (String c b) -> Bson.parse (String c b) = Some (Short bs) ->
        effects g = [FindShort bs])
  /\ (forall c b,
        state = Some (String c b) -> Bson.parse (String c b) = None ->
        effects g
        = [LogWarning ("Replication key value " +:+ String c b
                       +:+ " cannot be parsed into ObjectId.");
           Find None])
  /\ (forall t o,
        state = None \/ state = Some EmptyString ->
        strptime_to_utc start_date_str = inr t ->
        Bson.from_datetime t = Some o ->
        effects g = [info; Find (Some o)])
  /\ (forall e,
        state = None \/ state = Some EmptyString ->
        strptime_to_utc start_date_str = inl e
        \/ e = StructError
           /\ (exists t, strptime_to_utc start_date_str = inr t
                         /\ Bson.from_datetime t = None) ->
        g = {| yielded := []; effects := [info]; ending := Raised e |}).
Proof.
  intros Hm g start_date_str info. subst g start_date_str info.
  rewrite (get_records_incremental_eq self state fuel Hm).
  split; [|split; [|split; [|split]]].
  - intros c b o -> Hp. unfold Streams.starting_id. rewrite Hp. cbn.
    by destruct (scan _ 0 _).
  - intros c b bs -> Hp. unfold Streams.starting_id. rewrite Hp. cbn.
    destruct (short_id_sent (_collection self) bs); [done|].
    by destruct (scan _ 0 _).
  - intros c b -> Hp. unfold Streams.starting_id. rewrite Hp. cbn.
    by destruct (scan _ 0 _).
  - intros t o Hstate Ht Ho.
    assert (Hs : starting_id self state
                 = ([LogInfo ("using start_date_str: "
                              +:+ default "1970-01-01" (start_date (config self)))],
                    inr (Some (Whole o)))).
    { destruct Hstate as [-> | ->]; unfold Streams.starting_id;
        by rewrite Ht, Ho. }
    rewrite Hs. cbn. by destruct (scan _ 0 _).
  - intros e Hstate He.
    assert (Hs : starting_id self state
                 = ([LogInfo ("using start_date_str: "
                              +:+ default "1970-01-01" (start_date (config self)))],
                    inl e)).
    { destruct He as [He | (-> & t & Ht & Ho)];
        destruct Hstate as [-> | ->]; unfold Streams.starting_id;
        rewrite ?He, ?Ht, ?Ho; reflexivity. }
    by rewrite Hs.
Qed.

Lemma scan_lookup metadata cursor :
  forall n k r,
    fst (scan metadata n cursor) !! k = Some r ->
    exists doc o,
      cursor !! k = Some doc /\ doc !! "_id" = Some (VObjectId o)
      /\ r = if metadata
             then <["_sdc_batched_at" := VStr (utcnow_isoformat (n + k))]>
                    (bare_record doc o)
             else bare_record doc o.
Proof.
  induction cursor as [|doc cursor IH]; intros n k r; cbn; [by destruct k|].
  unfold Streams.incremental_record.
  destruct (doc !! "_id") as [[| | | |o| |]|] eqn:Hid; cbn; try by destruct k.
  specialize (IH (S n)).
  destruct (scan metadata (S n) cursor) as [rest s]. cbn in *.
  destruct k as [|k]; cbn.
  - intros [= <-]. exists doc, o. rewrite Nat.add_0_r. by destruct metadata.
  - intros Hr. destruct (IH k r Hr) as (doc' & o' & H1 & H2 & H3).
    exists doc', o'. by rewrite Nat.add_succ_r.
Qed.

(** X4. In Incremental mode the [k]-th yielded record is built from a
    document of the collection whose [_id] is an ObjectId: it has the [_id]
    text and the [document], and, exactly when add_record_metadata is set,
    also [_sdc_batched_at] with the [k]-th reading of the clock; it has no
    other field. *)
Theorem incremental_record_shape self state fuel k r :
  replication_method self = REPLICATION_INCREMENTAL ->
  yielded (get_records self state fuel) !! k = Some r ->
  exists doc o,
    doc ∈ documents (_collection self)
    /\ doc !! "_id" = Some (VObjectId o)
    /\ r = if should_add_metadata self
           then <["_sdc_batched_at" := VStr (utcnow_isoformat k)]>
                  (bare_record doc o)
           else bare_record doc o.
Proof.
  intros Hm. rewrite (get_records_incremental_eq self state fuel Hm).
  destruct (starting_id self state) as [log [e|start]]; [by destruct k|].
  destruct (query_bound (_collection self) start) as [asked [e|bound]];
    [by destruct k|].
  pose proof (scan_lookup (should_add_metadata self)
                (find_gt_sorted (_collection self) bound) 0 k r) as Hk.
  destruct (scan _ 0 _) as [records s]. cbn in *.
  intros Hr. destruct (Hk Hr) as (doc & o & Hdoc & Hid & ->).
  exists doc, o. split; [|by split].
  apply list_elem_of_lookup_2 in Hdoc.
  destruct bound as [b|]; [|by rewrite find_gt_sorted_null in Hdoc; inversion Hdoc].
  by apply find_gt_sorted_elem in Hdoc as [? _].
Qed.

(** X5. A record yielded for a change event takes every field from that
    event: the event has a string operationType of the allow-list, a
    Timestamp clusterTime, an [_id] with a [_data], a fullDocument and an ns,
    and the record carries them; the three [_sdc_] timestamps are present
    exactly when add_record_metadata is set, [_sdc_deleted_at] only for the
    operation type "delete". *)
Theorem log_based_record_fields metadata n allowlist record r :
  log_based_record metadata n allowlist record = inr (Some r) ->
  exists op time token data document ns,
    (record !! "operationType" = Some (VStr op) /\ op ∈ allowlist
     /\ record !! "clusterTime" = Some (VTimestamp time)
     /\ record !! "_id" = Some (VDict token) /\ token !! "_data" = Some data
     /\ record !! "fullDocument" = Some document
     /\ record !! "ns" = Some ns)
    /\ (r !! "_id" = Some data /\ r !! "document" = Some document
        /\ r !! "operationType" = Some (VStr op)
        /\ r !! "clusterTime" = Some (VStr (isoformat time))
        /\ r !! "ns" = Some ns)
    /\ r !! "_sdc_extracted_at"
       = (if metadata then Some (VStr (isoformat time)) else None)
    /\ r !! "_sdc_batched_at"
       = (if metadata then Some (VStr (utcnow_isoformat n)) else None)
    /\ r !! "_sdc_deleted_at"
       = (if metadata && String.eqb op "delete"
          then Some (VStr (isoformat time)) else None).
Proof.
  unfold Streams.log_based_record, getitem, mbind, exn_bind, mret, exn_ret.
  destruct (record !! "operationType") as [operation_type|]; [|discriminate].
  destruct operation_type as [| | |op| | |]; cbn; try discriminate.
  destruct (bool_decide (op ∈ allowlist)) eqn:Hin; cbn; [|discriminate].
  apply bool_decide_eq_true in Hin.
  destruct (record !! "clusterTime") as [ct|]; [|discriminate].
  destruct ct as [| | | | |time|]; cbn; try discriminate.
  destruct (record !! "_id") as [id|]; [|discriminate].
  destruct id as [| | | | | |token]; cbn; try discriminate.
  unfold getitem.
  destruct (token !! "_data") as [data|] eqn:Hdata; [|discriminate].
  destruct (record !! "fullDocument") as [document|]; [|discriminate].
  destruct (record !! "ns") as [ns|]; [|discriminate].
  intros [= <-]. exists op, time, token, data, document, ns.
  split; [by repeat split|].
  destruct metadata; [destruct (String.eqb op "delete")|];
    cbn; repeat split; by simplify_map_eq.
Qed.

Lemma emitted_none cs metadata allowlist n :
  try_next cs n = None -> emitted cs metadata allowlist n = None.
Proof. intros H. unfold emitted_at. by rewrite H. Qed.

Lemma emitted_event cs metadata allowlist n record :
  try_next cs n = Some record ->
  emitted cs metadata allowlist n
  = match log_based_record metadata n allowlist record with
    | inr (Some r) => Some r
    | _ => None
    end.
Proof. intros H. unfold emitted_at. by rewrite H. Qed.

Lemma drain_poll_order cs metadata allowlist fuel :
  forall n seen keep_open,
    exists m, m <= fuel
              /\ fst (drain fuel cs metadata allowlist n seen keep_open)
                 = omap (emitted cs metadata allowlist) (seq n m).
Proof.
  induction fuel as [|fuel IH]; intros n seen keep_open; cbn [Streams.drain].
  - exists 0. by destruct (negb _).
  - destruct (negb (alive cs n && keep_open)); [exists 0; split; [lia | done]|].
    destruct (try_next cs n) as [[record|]|e] eqn:Hp;
      [| |exists 0; split; [lia | done]].
    + pose proof (emitted_event cs metadata allowlist n record Hp) as Hem.
      destruct (log_based_record metadata n allowlist record) as [e|[r|]] eqn:Hr.
      * exists 0. split; [lia | done].
      * destruct (IH (S n) true
                    (if bool_decide (Some record = None) && seen
                     then false else keep_open)) as (m & Hm & Hys).
        exists (S m). split; [lia|].
        destruct (drain fuel cs metadata allowlist (S n) true _) as [rest s].
        cbn in *. by rewrite Hem, Hys.
      * destruct (IH (S n) seen
                    (if bool_decide (Some record = None) && seen
                     then false else keep_open)) as (m & Hm & Hys).
        exists (S m). split; [lia|]. cbn. by rewrite Hem.
    + destruct (IH (S n) seen
                  (if bool_decide (@None pydict = None) && seen
                   then false else keep_open)) as (m & Hm & Hys).
      exists (S m). split; [lia|]. cbn.
      by rewrite (emitted_none cs metadata allowlist n Hp).
Qed.

(** X6. In LogBased mode the output follows the polls: what an invocation
    has yielded after at most [fuel] polls is, in poll order and without
    gaps or repetitions, the record of every poll among the first [m] (for
    some [m] up to [fuel]) whose event is normalized to a record. *)
Theorem log_based_output_in_poll_order self state fuel allowlist cs :
  replication_method self = REPLICATION_LOG_BASED ->
  operation_types (config self) = Some allowlist ->
  watch (_collection self) "updateLookup" state = inr cs ->
  exists m,
    m <= fuel
    /\ yielded (get_records self state fuel)
       = omap (emitted cs (should_add_metadata self) allowlist) (seq 0 m).
Proof.
  intros Hm Hops Hw.
  rewrite (get_records_log_based_eq self state fuel allowlist cs Hm Hops Hw).
  destruct (drain_poll_order cs (should_add_metadata self) allowlist fuel 0
              false true) as (m & Hle & Hys).
  exists m. split; [exact Hle|].
  by destruct (drain fuel cs _ allowlist 0 false true).
Qed.

Lemma drain_returned cs metadata allowlist fuel :
  forall n ys,
    drain fuel cs metadata allowlist n false true = (ys, Returned) ->
    ys <> [] \/ exists k, alive cs k = false.
Proof.
  induction fuel as [|fuel IH]; intros n ys; cbn [Streams.drain];
    rewrite andb_true_r.
  - destruct (alive cs n) eqn:Ha; cbn; [discriminate|]. intros _. right. eauto.
  - destruct (alive cs n) eqn:Ha; cbn; [|intros _; right; eauto].
    destruct (try_next cs n) as [[record|]|e]; cbn; rewrite ?andb_false_r;
      [|apply IH|discriminate].
    destruct (log_based_record metadata n allowlist record) as [e|[r|]];
      [discriminate | | apply IH].
    destruct (drain fuel cs metadata allowlist (S n) true true) as [rest s].
    intros [= <- _]. by left.
Qed.

(** X7. In LogBased mode an invocation never ends on its own before it has
    yielded a record: when get_records returns with nothing yielded, the
    cursor was found not alive. *)
Theorem log_based_returns_after_yield_or_death self state fuel allowlist cs :
  replication_method self = REPLICATION_LOG_BASED ->
  operation_types (config self) = Some allowlist ->
  watch (_collection self) "updateLookup" state = inr cs ->
  ending (get_records self state fuel) = Returned ->
  yielded (get_records self state fuel) <> [] \/ exists k, alive cs k = false.
Proof.
  intros Hm Hops Hw.
  rewrite (get_records_log_based_eq self state fuel allowlist cs Hm Hops Hw).
  pose proof (drain_returned cs (should_add_metadata self) allowlist fuel 0) as H.
  destruct (drain fuel cs _ allowlist 0 false true) as [ys s]. cbn.
  intros ->. by apply H.
Qed.

(** X8. With an empty allow-list a LogBased invocation yields nothing,
    whatever the change stream reports, and it only returns when the cursor
    is found not alive. *)
Theorem empty_allowlist_yields_nothing self state fuel cs :
  replication_method self = REPLICATION_LOG_BASED ->
  operation_types (config self) = Some [] ->
  watch (_collection self) "updateLookup" state = inr cs ->
  yielded (get_records self state fuel) = []
  /\ (ending (get_records self state fuel) = Returned ->
      exists k, alive cs k = false).
Proof.
  intros Hm Hops Hw.
  rewrite (get_records_log_based_eq self state fuel [] cs Hm Hops Hw).
  pose proof (drain_yields_allowed isoformat utcnow_isoformat cs
                (should_add_metadata self) [] fuel 0 false true) as Hall.
  pose proof (drain_returned cs (should_add_metadata self) [] fuel 0) as Hret.
  destruct (drain fuel cs _ [] 0 false true) as [ys s]. cbn in *.
  assert (Hys : ys = []).
  { destruct ys as [|r ys]; [reflexivity|].
    inversion Hall as [|? ? (k & record & op & _ & _ & _ & Hin & _) _]; subst.
    by apply elem_of_nil in Hin. }
  split; [exact Hys|]. intros ->.
  destruct (Hret ys eq_refl) as [Hne | Hdead]; [congruence | exact Hdead].
Qed.

Lemma drain_dead_cursor cs metadata allowlist k :
  alive cs k = false ->
  forall fuel n seen keep_open,
    n <= k -> k - n <= fuel ->
    snd (drain fuel cs metadata allowlist n seen keep_open) <> Running.
Proof.
  intros Hdead fuel. induction fuel as [|fuel IH]; intros n seen keep_open Hn Hf;
    cbn [Streams.drain].
  - assert (n = k) as -> by lia. by rewrite Hdead.
  - destruct (alive cs n) eqn:Ha; [|done].
    destruct keep_open; [|done]. cbn.
    assert (n <> k) by congruence.
    destruct (try_next cs n) as [[record|]|e]; [|apply IH; lia|done].
    destruct (log_based_record metadata n allowlist record) as [e|[r|]];
      [done | | apply IH; lia].
    specialize (IH (S n) true
      (if bool_decide (Some record = None) && seen then false else true)).
    destruct (drain fuel cs metadata allowlist (S n) true _) as [ys s].
    apply IH; lia.
Qed.

(** X10. A cursor that stops being alive bounds the invocation: when the
    cursor is not alive before poll [k], a LogBased invocation has ended
    (returned or raised) within [k] polls. *)
Theorem log_based_ends_with_cursor self state fuel allowlist cs k :
  replication_method self = REPLICATION_LOG_BASED ->
  operation_types (config self) = Some allowlist ->
  watch (_collection self) "updateLookup" state = inr cs ->
  alive cs k = false -> k <= fuel ->
  ending (get_records self state fuel) <> Running.
Proof.
  intros Hm Hops Hw Hdead Hk.
  rewrite (get_records_log_based_eq self state fuel allowlist cs Hm Hops Hw).
  pose proof (drain_dead_cursor cs (should_add_metadata self) allowlist k Hdead
                fuel 0 false true) as H.
  destruct (drain fuel cs _ allowlist 0 false true) as [ys s]. cbn in *.
  apply H; lia.
Qed.

Lemma drain_raised cs metadata allowlist fuel e :
  forall n seen keep_open,
    snd (drain fuel cs metadata allowlist n seen keep_open) = Raised e ->
    exists k,
      try_next cs k = PollError e
      \/ exists record,
           try_next cs k = Some record
           /\ log_based_record metadata k allowlist record = inl e.
Proof.
  induction fuel as [|fuel IH]; intros n seen keep_open; cbn [Streams.drain].
  - by destruct (negb _).
  - destruct (negb (alive cs n && keep_open)); [done|].
    destruct (try_next cs n) as [[record|]|e'] eqn:Hp; [|apply IH|].
    + destruct (log_based_record metadata n allowlist record) as [e'|[r|]] eqn:Hr;
        [| | apply IH].
      * cbn. intros [= ->]. exists n. right. eauto.
      * specialize (IH (S n) true
          (if bool_decide (Some record = None) && seen then false else keep_open)).
        by destruct (drain fuel cs metadata allowlist (S n) true _).
    + cbn. intros [= ->]. exists n. by left.
Qed.

(** X11. Where the error of a LogBased invocation comes from: when
    get_records raises [e], the operation_types option is absent, or [e] is
    the error of [watch] (the resume token being rejected for instance), of
    a poll, or of the normalization of a polled event. An empty poll and an
    event outside the allow-list raise nothing. *)
Theorem log_based_errors self state fuel e :
  replication_method self = REPLICATION_LOG_BASED ->
  ending (get_records self state fuel) = Raised e ->
  operation_types (config self) = None
  \/ exists allowlist,
       operation_types (config self) = Some allowlist
       /\ (watch (_collection self) "updateLookup" state = inl e
           \/ exists cs k,
                watch (_collection self) "updateLookup" state = inr cs
                /\ (try_next cs k = PollError e
                    \/ exists record,
                         try_next cs k = Some record
                         /\ ~ excluded allowlist record
                         /\ log_based_record (should_add_metadata self) k
                              allowlist record
                            = inl e)).
Proof.
  intros Hm. unfold Streams.get_records, get_starting_replication_key_value.
  rewrite Hm. cbn.
  destruct (operation_types (config self)) as [allowlist|]; [|by left].
  intros Hend. right. exists allowlist. split; [reflexivity|].
  destruct (watch (_collection self) "updateLookup" state) as [e'|cs] eqn:Hw.
  - cbn in Hend. left. congruence.
  - right.
    pose proof (drain_raised cs (should_add_metadata self) allowlist fuel e
                  0 false true) as Hr.
    destruct (drain fuel cs _ allowlist 0 false true) as [ys s]. cbn in *.
    destruct (Hr Hend) as (k & [Hp | (record & Hp & He)]); exists cs, k;
      (split; [reflexivity|]); [by left|].
    right. exists record. split; [exact Hp|]. split; [|exact He].
    intros Hex.
    rewrite (excluded_skipped isoformat utcnow_isoformat _ k _ _ Hex) in He.
    discriminate.
Qed.

End Modes.

(** X12. The state partitioning keys of a stream have no effect on
    _increment_stream_state: with any other keys, or none, the call leaves
    the same state entry, logs the same and raises the same. *)
Theorem increment_ignores_state_partitioning_keys self keys latest_record state_dict :
  _increment_stream_state (with_state_partitioning_keys self keys)
    latest_record state_dict
  = _increment_stream_state self latest_record state_dict.
Proof.
  unfold _increment_stream_state.
  rewrite (treat_as_sorted_is_sorted (with_state_partitioning_keys self keys)),
    (treat_as_sorted_is_sorted self).
  reflexivity.
Qed.

(** ** The order of ObjectIds and of their text *)

Module BsonOrder.

Lemma hex_digit_compare (x y : N) :
  (x < 16)%N -> (y < 16)%N ->
  Ascii.compare (hex_digit x) (hex_digit y) = (x ?= y)%N.
Proof.
  intros Hx Hy.
  assert (Ex : (x = 0 \/ x = 1 \/ x = 2 \/ x = 3 \/ x = 4 \/ x = 5 \/ x = 6
                \/ x = 7 \/ x = 8 \/ x = 9 \/ x = 10 \/ x = 11 \/ x = 12
                \/ x = 13 \/ x = 14 \/ x = 15)%N) by lia.
  assert (Ey : (y = 0 \/ y = 1 \/ y = 2 \/ y = 3 \/ y = 4 \/ y = 5 \/ y = 6
                \/ y = 7 \/ y = 8 \/ y = 9 \/ y = 10 \/ y = 11 \/ y = 12
                \/ y = 13 \/ y = 14 \/ y = 15)%N) by lia.
  clear Hx Hy.
  repeat (destruct Ex as [-> | Ex]); try subst x;
    repeat (destruct Ey as [-> | Ey]); try subst y; reflexivity.
Qed.

Lemma compare_digits (base hi lo hi' lo' : N) :
  (lo < base)%N -> (lo' < base)%N ->
  (base * hi + lo ?= base * hi' + lo')%N
  = match (hi ?= hi')%N with
    | Eq => (lo ?= lo')%N
    | c => c
    end.
Proof.
  intros Hlo Hlo'.
  destruct (N.compare_spec hi hi') as [-> | H | H].
  - destruct (N.compare_spec lo lo') as [-> | H | H].
    + apply N.compare_refl.
    + apply N.compare_lt_iff. lia.
    + apply N.compare_gt_iff. lia.
  - apply N.compare_lt_iff. nia.
  - apply N.compare_gt_iff. nia.
Qed.

Lemma compare_hexlify_cons (a b : byte) (l k : list byte) :
  String.compare (hexlify (a :: l)) (hexlify (b :: k))
  = match (Byte.to_N a ?= Byte.to_N b)%N with
    | Eq => String.compare (hexlify l) (hexlify k)
    | c => c
    end.
Proof.
  pose proof (Byte.to_N_bounded a) as Ha. pose proof (Byte.to_N_bounded b) as Hb.
  assert (Hlo : forall n : N, (n mod 16 < 16)%N) by (intros; by apply N.mod_lt).
  assert (Hhi : forall n : N, (n <= 255 -> n / 16 < 16)%N)
    by (intros n Hn; apply N.Div0.div_lt_upper_bound; lia).
  cbn [hexlify String.compare].
  rewrite !hex_digit_compare by auto.
  rewrite (N.div_mod (Byte.to_N a) 16) at 3 by lia.
  rewrite (N.div_mod (Byte.to_N b) 16) at 3 by lia.
  rewrite compare_digits by auto.
  by destruct (Byte.to_N a / 16 ?= Byte.to_N b / 16)%N.
Qed.

Lemma compare_fold (l : list byte) :
  forall (k : list byte) (acc acc' : N),
    length l = length k ->
    (fold_left (fun acc b => acc * 256 + Byte.to_N b) l acc
     ?= fold_left (fun acc b => acc * 256 + Byte.to_N b) k acc')%N
    = match (acc ?= acc')%N with
      | Eq => String.compare (hexlify l) (hexlify k)
      | c => c
      end.
Proof.
  induction l as [|a l IH]; intros [|b k] acc acc' Hlen; try discriminate.
  - cbn. by destruct (acc ?= acc')%N.
  - cbn [fold_left]. rewrite IH by (cbn in Hlen; lia).
    rewrite compare_hexlify_cons.
    pose proof (Byte.to_N_bounded a). pose proof (Byte.to_N_bounded b).
    rewrite !(N.mul_comm _ 256), compare_digits by lia.
    by destruct (acc ?= acc')%N.
Qed.

(** The text of ObjectIds orders them as their bytes do. *)
Lemma str_lt_str (a b : ObjectId) :
  str_lt (Bson.str a) (Bson.str b) = Bson.ltb a b.
Proof.
  unfold str_lt, String.ltb, Bson.ltb, N.ltb, Bson.to_N, Bson.str.
  rewrite (compare_fold (binary a) (binary b) 0 0) by (by destruct a, b).
  reflexivity.
Qed.

Lemma to_N_inj (a b : ObjectId) : Bson.to_N a = Bson.to_N b -> a = b.
Proof.
  intros H.
  assert (Hs : Bson.str a = Bson.str b).
  { apply String.compare_eq_iff.
    pose proof (compare_fold (binary a) (binary b) 0 0) as Hc.
    unfold Bson.to_N in H. rewrite H, N.compare_refl in Hc. cbn in Hc.
    symmetry. apply Hc. by destruct a, b. }
  assert (Some (Whole a) = Some (Whole b)) as [= ->]; [|reflexivity].
  by rewrite <- (BsonFacts.parse_str a), <- (BsonFacts.parse_str b), Hs.
Qed.

End BsonOrder.

(** ** Resuming in the middle of a scan *)

Lemma NoDup_fmap_inj_on {A B} (f : A -> B) (l : list A) (x y : A) :
  NoDup (f <$> l) -> x ∈ l -> y ∈ l -> f x = f y -> x = y.
Proof.
  induction l as [|a l IH]; intros Hnd Hx Hy Hf; [by inversion Hx|].
  rewrite fmap_cons in Hnd. apply NoDup_cons in Hnd as [Ha Hnd].
  apply elem_of_cons in Hx as [-> | Hx]; apply elem_of_cons in Hy as [-> | Hy].
  - reflexivity.
  - exfalso. apply Ha. rewrite Hf. by apply list_elem_of_fmap_2.
  - exfalso. apply Ha. rewrite <- Hf. by apply list_elem_of_fmap_2.
  - by apply IH.
Qed.

Lemma NoDup_fmap_filter {A B} (f : A -> B) (g : A -> bool) (l : list A) :
  NoDup (f <$> l) -> NoDup (f <$> List.filter g l).
Proof.
  induction l as [|a l IH]; intros Hnd; [done|].
  rewrite fmap_cons in Hnd. apply NoDup_cons in Hnd as [Ha Hnd]. cbn.
  destruct (g a); [|by apply IH].
  rewrite fmap_cons. apply NoDup_cons. split; [|by apply IH].
  intros Hin. apply Ha. apply list_elem_of_fmap in Hin as (x & -> & Hx).
  apply list_elem_of_fmap_2. apply list_elem_of_In, filter_In in Hx as [Hx _].
  by apply list_elem_of_In.
Qed.

Lemma find_gt_sorted_unique_ids (c : Collection) (start : option ObjectId) :
  unique_ids c ->
  NoDup ((fun doc : pydict => doc !! "_id") <$> find_gt_sorted c start).
Proof.
  intros Hu. rewrite find_gt_sorted_perm. by apply NoDup_fmap_filter.
Qed.

Lemma find_gt_sorted_object_ids (c : Collection) (start : option ObjectId) :
  Forall has_object_id (find_gt_sorted c start).
Proof.
  eapply Forall_impl; [apply find_gt_sorted_matches|].
  intros doc Hd. apply matches_gt_inv in Hd as (b & o & _ & Ho & _). by exists o.
Qed.

(** With unique identifiers, the scan from the identifier of one of the
    documents of a scan is the rest of that scan. *)
Lemma find_gt_sorted_suffix (c : Collection) start docs1 doc o docs2 :
  unique_ids c ->
  find_gt_sorted c start = docs1 ++ doc :: docs2 ->
  doc !! "_id" = Some (VObjectId o) ->
  find_gt_sorted c (Some o) = docs2.
Proof.
  intros Hu Hsplit Hdoc.
  pose proof (find_gt_sorted_sorted c start) as Hsorted.
  pose proof (find_gt_sorted_unique_ids c start Hu) as Hnd.
  rewrite Hsplit in Hsorted, Hnd.
  destruct start as [b|];
    [|rewrite find_gt_sorted_null in Hsplit; by destruct docs1].
  assert (Hin : forall x, x ∈ docs1 ++ doc :: docs2 ->
                  x ∈ documents c
                  /\ exists ox, x !! "_id" = Some (VObjectId ox)
                                /\ (Bson.to_N b < Bson.to_N ox)%N).
  { intros x Hx. rewrite <- Hsplit in Hx. by apply find_gt_sorted_elem. }
  assert (Hb : (Bson.to_N b < Bson.to_N o)%N).
  { destruct (Hin doc) as (_ & o' & Ho' & Hlt);
      [apply elem_of_app; right; by left|]. congruence. }
  assert (Hafter : forall x ox, x ∈ docs2 -> x !! "_id" = Some (VObjectId ox) ->
                     (Bson.to_N o < Bson.to_N ox)%N).
  { intros x ox Hx Hox.
    assert (Hle : id_le doc x).
    { apply (StronglySorted_app_1_elem_of _ (docs1 ++ [doc]) docs2);
        [by rewrite <- app_assoc | apply elem_of_app; right; by left | done]. }
    unfold id_le, sort_key in Hle. rewrite Hdoc, Hox in Hle.
    assert (Hne : Bson.to_N o <> Bson.to_N ox); [|lia].
    intros Heq. apply BsonOrder.to_N_inj in Heq as <-.
    rewrite fmap_app, fmap_cons in Hnd.
    apply NoDup_app in Hnd as (_ & _ & Hnd). apply NoDup_cons in Hnd as [Hnot _].
    apply Hnot. rewrite Hdoc, <- Hox. by apply list_elem_of_fmap_2. }
  apply (StronglySorted_unique_strong id_le).
  - intros x1 x2 Hx1 Hx2 H12 H21.
    apply find_gt_sorted_elem in Hx1 as (Hd1 & o1 & Ho1 & _).
    destruct (Hin x2) as (Hd2 & o2 & Ho2 & _);
      [apply elem_of_app; right; by right|].
    apply (NoDup_fmap_inj_on (fun doc : pydict => doc !! "_id") (documents c));
      [done..|].
    unfold id_le, sort_key in H12, H21. rewrite Ho1, Ho2 in *.
    f_equal. f_equal. apply BsonOrder.to_N_inj. lia.
  - apply find_gt_sorted_sorted.
  - apply StronglySorted_app_1_r in Hsorted. by inversion Hsorted.
  - apply NoDup_Permutation.
    + apply (NoDup_fmap_1 (fun doc : pydict => doc !! "_id")).
      by apply find_gt_sorted_unique_ids.
    + apply NoDup_fmap_1 in Hnd. apply NoDup_app in Hnd as (_ & _ & Hnd).
      by apply NoDup_cons in Hnd as [_ Hnd].
    + intros x. rewrite find_gt_sorted_elem. split.
      * intros (Hx & ox & Hox & Hlt).
        assert (Hx' : x ∈ docs1 ++ doc :: docs2).
        { rewrite <- Hsplit. apply find_gt_sorted_elem.
          split; [done|]. exists ox. split; [done | lia]. }
        apply elem_of_app in Hx' as [Hx' | Hx'].
        -- exfalso.
           assert (Hle : id_le x doc).
           { apply (StronglySorted_app_1_elem_of _ docs1 (doc :: docs2));
               [done.. | by left]. }
           unfold id_le, sort_key in Hle. rewrite Hdoc, Hox in Hle. lia.
        -- apply elem_of_cons in Hx' as [-> | Hx']; [|done].
           exfalso. rewrite Hdoc in Hox. injection Hox as <-. lia.
      * intros Hx. destruct (Hin x) as (Hd & ox & Hox & _);
          [apply elem_of_app; right; by right|].
        split; [done|]. exists ox. split; [done|]. by apply (Hafter x).
Qed.

Section Restart.

Variable strptime_to_utc : string -> exn + Z.
Variable isoformat : Z -> string.
Variable utcnow_isoformat : nat -> string.

Local Abbreviation starting_id := (starting_id strptime_to_utc).
Local Abbreviation scan := (scan utcnow_isoformat).
Local Abbreviation get_records := (get_records strptime_to_utc isoformat utcnow_isoformat).

Lemma scan_bare metadata cursor :
  forall n,
    Forall has_object_id cursor ->
    delete "_sdc_batched_at" <$> fst (scan metadata n cursor) = bare_of <$> cursor
    /\ (metadata = false -> fst (scan metadata n cursor) = bare_of <$> cursor).
Proof.
  induction cursor as [|doc cursor IH]; intros n Hall; [done|].
  apply Forall_cons in Hall as [[o Ho] Hall].
  destruct (IH (S n) Hall) as [IH1 IH2].
  cbn. unfold Streams.incremental_record, bare_of at 1 3. rewrite Ho.
  destruct (scan metadata (S n) cursor) as [rest s]. cbn in *.
  assert (Hbare : bare_record doc o !! "_sdc_batched_at" = None)
    by (unfold bare_record; by simplify_map_eq).
  split.
  - rewrite IH1. f_equal.
    destruct metadata; [by apply delete_insert_id | by apply delete_id].
  - intros ->. by rewrite IH2.
Qed.

(** X13. An interrupted scan resumes where it stopped: over a collection
    whose documents have distinct [_id]s, re-running get_records in
    Incremental mode with the [_id] of any record of a run as the bookmark
    returns after yielding exactly the records that followed it in that run
    (their batch timestamp aside, which is read anew). *)
Theorem incremental_resume_after self state fuel fuel' rs1 r rs2 b :
  replication_method self = REPLICATION_INCREMENTAL ->
  unique_ids (_collection self) ->
  yielded (get_records self state fuel) = rs1 ++ r :: rs2 ->
  r !! "_id" = Some (VStr b) ->
  let g := get_records self (Some b) fuel' in
  ending g = Returned
  /\ delete "_sdc_batched_at" <$> yielded g = delete "_sdc_batched_at" <$> rs2
  /\ (should_add_metadata self = false -> yielded g = rs2).
Proof.
  intros Hm Hu Hys Hb g. subst g.
  destruct (starting_id self state) as [log [e|start]] eqn:Hstart.
  { rewrite (get_records_incremental_eq strptime_to_utc isoformat
               utcnow_isoformat self state fuel Hm), Hstart in Hys.
    by destruct rs1. }
  destruct (get_records_incremental_any strptime_to_utc isoformat
              utcnow_isoformat self state log start Hm Hstart)
    as [(e & _ & Hg) | (bound & records & _ & Hg & Hscan & H2)].
  { rewrite Hg in Hys. by destruct rs1. }
  rewrite Hg in Hys. cbn in Hys. subst records.
  apply Forall2_app_inv_l in H2 as (docs1 & docs' & H21 & H2' & Hsplit).
  apply Forall2_cons_inv_l in H2' as (doc & docs2 & (o & Hdoc & Hr & _) & H22 & ->).
  rewrite Hb in Hr. injection Hr as ->.
  pose proof (find_gt_sorted_suffix _ _ _ _ _ _ Hu Hsplit Hdoc) as Hrest.
  pose proof (scan_bare (should_add_metadata self)
                (find_gt_sorted (_collection self) bound) 0
                (find_gt_sorted_object_ids _ _)) as [Hb1 Hb2].
  rewrite Hscan, Hsplit in Hb1, Hb2.
  destruct (get_records_incremental_any strptime_to_utc isoformat
              utcnow_isoformat self (Some (Bson.str o)) [] (whole (Some o)) Hm
              (starting_id_str strptime_to_utc self o))
    as [(e & Hq & _) | (bound' & records' & Hq & Hg' & Hscan' & _)];
    rewrite query_bound_whole in Hq; cbn in Hq; [discriminate|].
  injection Hq as <-. rewrite Hg'. cbn.
  pose proof (scan_bare (should_add_metadata self)
                (find_gt_sorted (_collection self) (Some o)) 0
                (find_gt_sorted_object_ids _ _)) as [Hc1 Hc2].
  rewrite Hscan', Hrest in Hc1, Hc2.
  split; [reflexivity|]. split.
  - rewrite Hc1. rewrite !fmap_app, !fmap_cons in Hb1.
    apply app_inj_1 in Hb1 as [_ Hb1];
      [|rewrite !length_fmap; by eapply Forall2_length].
    by injection Hb1 as _ <-.
  - intros Hmeta. rewrite (Hc2 Hmeta). specialize (Hb2 Hmeta).
    rewrite !fmap_app, !fmap_cons in Hb2.
    apply app_inj_1 in Hb2 as [_ Hb2];
      [|rewrite length_fmap; by eapply Forall2_length].
    by injection Hb2 as _ <-.
Qed.

Lemma id_texts_cons (r : pydict) (records : list pydict) (t : string) :
  r !! "_id" = Some (VStr t) -> id_texts (r :: records) = t :: id_texts records.
Proof. intros H. unfold id_texts. cbn. by rewrite H. Qed.

Lemma id_texts_emitted records docs :
  Forall2 emitted_for records docs ->
  length (id_texts records) = length records
  /\ forall t, t ∈ id_texts records ->
       exists doc o, doc ∈ docs /\ doc !! "_id" = Some (VObjectId o)
                     /\ t = Bson.str o.
Proof.
  induction 1 as [|r doc records docs (o & Hdoc & Hr & _) _ [IHlen IH]];
    [split; [done | by inversion 1]|].
  rewrite (id_texts_cons r records _ Hr). split; [cbn; by rewrite IHlen|].
  intros t Ht. apply elem_of_cons in Ht as [-> | Ht].
  - exists doc, o. split; [by left | done].
  - destruct (IH t Ht) as (doc' & o' & Hin & Ho' & ->).
    exists doc', o'. split; [by right | done].
Qed.

Lemma id_texts_sorted (P : N -> N -> Prop) (Q : string -> string -> Prop)
    records docs :
  (forall o o', P (Bson.to_N o) (Bson.to_N o') -> Q (Bson.str o) (Bson.str o')) ->
  Forall2 emitted_for records docs ->
  StronglySorted (fun d1 d2 => P (sort_key d1) (sort_key d2)) docs ->
  StronglySorted Q (id_texts records).
Proof.
  intros HPQ H2. induction H2 as [|r doc records docs Hem H2 IH];
    intros Hsorted; [constructor|].
  destruct Hem as (o & Hdoc & Hr & _).
  rewrite (id_texts_cons r records _ Hr).
  inversion Hsorted as [|? ? Hsorted' Hhd]; subst.
  constructor; [by apply IH|].
  apply Forall_forall. intros t Ht.
  destruct (proj2 (id_texts_emitted records docs H2) t Ht)
    as (doc' & o' & Hin & Ho' & ->).
  apply HPQ. rewrite Forall_forall in Hhd. specialize (Hhd doc' Hin).
  unfold sort_key in Hhd. by rewrite Hdoc, Ho' in Hhd.
Qed.

Lemma strictly_sorted_of_unique (docs : list pydict) :
  StronglySorted id_le docs ->
  NoDup ((fun doc : pydict => doc !! "_id") <$> docs) ->
  Forall has_object_id docs ->
  StronglySorted (fun d1 d2 => (sort_key d1 < sort_key d2)%N) docs.
Proof.
  induction 1 as [|doc docs Hsorted IH Hhd]; intros Hnd Hids; [constructor|].
  rewrite fmap_cons in Hnd. apply NoDup_cons in Hnd as [Hnot Hnd].
  apply Forall_cons in Hids as [[o Ho] Hids].
  constructor; [by apply IH|].
  apply Forall_forall. intros doc' Hin.
  rewrite Forall_forall in Hhd, Hids.
  specialize (Hhd doc' Hin). destruct (Hids doc' Hin) as [o' Ho'].
  unfold id_le, sort_key in *. rewrite Ho, Ho' in Hhd |- *.
  assert (Hne : Bson.to_N o <> Bson.to_N o'); [|lia].
  intros Heq. apply BsonOrder.to_N_inj in Heq as <-.
  apply Hnot. rewrite Ho, <- Ho'. by apply list_elem_of_fmap_2.
Qed.

Lemma find_gt_sorted_strict (c : Collection) (start : option ObjectId) :
  unique_ids c ->
  StronglySorted (fun d1 d2 => (sort_key d1 < sort_key d2)%N)
    (find_gt_sorted c start).
Proof.
  intros Hu. apply strictly_sorted_of_unique.
  - apply find_gt_sorted_sorted.
  - by apply find_gt_sorted_unique_ids.
  - apply find_gt_sorted_object_ids.
Qed.

(** X14. The replication key sorts as text: in Incremental mode every
    yielded record has a string [_id], and the [_id]s of the run are in
    ascending order under Python's string comparison, strictly so when the
    documents of the collection have distinct [_id]s. *)
Theorem incremental_ids_ascend_as_text self state fuel :
  replication_method self = REPLICATION_INCREMENTAL ->
  let texts := id_texts (yielded (get_records self state fuel)) in
  length texts = length (yielded (get_records self state fuel))
  /\ StronglySorted (fun a b => str_lt b a = false) texts
  /\ (unique_ids (_collection self) ->
      StronglySorted (fun a b => str_lt a b = true) texts).
Proof.
  intros Hm texts. subst texts.
  destruct (starting_id self state) as [log [e|start]] eqn:Hstart.
  { rewrite (get_records_incremental_eq strptime_to_utc isoformat
               utcnow_isoformat self state fuel Hm), Hstart.
    cbn. repeat split; intros; constructor. }
  destruct (get_records_incremental_any strptime_to_utc isoformat
              utcnow_isoformat self state log start Hm Hstart)
    as [(e & _ & Hg) | (bound & records & _ & Hg & _ & H2)]; rewrite Hg.
  { cbn. repeat split; intros; constructor. }
  cbn [yielded]. split; [apply (id_texts_emitted _ _ H2)|]. split.
  - apply (id_texts_sorted N.le (fun a b => str_lt b a = false) _ _) with (2 := H2).
    + intros o o' Hle. rewrite BsonOrder.str_lt_str.
      unfold Bson.ltb. apply N.ltb_ge. exact Hle.
    + apply find_gt_sorted_sorted.
  - intros Hu.
    apply (id_texts_sorted N.lt (fun a b => str_lt a b = true) _ _) with (2 := H2).
    + intros o o' Hlt. rewrite BsonOrder.str_lt_str. by apply BsonFacts.ltb_lt.
    + by apply find_gt_sorted_strict.
Qed.

End Restart.

(** ** Draining a backlog *)

Section CatchUp.

Variable strptime_to_utc : string -> exn + Z.
Variable isoformat : Z -> string.
Variable utcnow_isoformat : nat -> string.

Local Abbreviation log_based_record := (log_based_record isoformat utcnow_isoformat).
Local Abbreviation drain := (drain isoformat utcnow_isoformat).
Local Abbreviation get_records := (get_records strptime_to_utc isoformat utcnow_isoformat).
Local Abbreviation emitted := (emitted_at isoformat utcnow_isoformat).

(** After a record was yielded: events up to the first empty poll, at [k]. *)
Lemma drain_to_gap cs metadata allowlist k :
  (forall i, i <= k -> alive cs i = true) ->
  (forall i e, i < k -> try_next cs i <> PollError e) ->
  (forall i record e,
     i < k -> try_next cs i = Some record ->
     log_based_record metadata i allowlist record <> inl e) ->
  try_next cs k = None ->
  forall fuel n,
    n <= k -> (forall i, n <= i < k -> try_next cs i <> None) ->
    k - n < fuel ->
    drain fuel cs metadata allowlist n true true
    = (omap (emitted cs metadata allowlist) (seq n (k - n)), Returned).
Proof.
  intros Halive Hpolls Hnorm Hgap fuel.
  induction fuel as [|fuel IH]; intros n Hn Hevents Hfuel; [lia|].
  destruct (decide (n = k)) as [-> | Hne].
  - rewrite (drain_later_gap isoformat utcnow_isoformat) by auto.
    by rewrite Nat.sub_diag.
  - replace (k - n) with (S (k - S n)) by lia. cbn [seq omap].
    cbn [Streams.drain]. rewrite (Halive n) by lia. cbn.
    destruct (try_next cs n) as [[record|]|e] eqn:Hp;
      [|by destruct (Hevents n ltac:(lia))
       |by destruct (Hpolls n e ltac:(lia))].
    rewrite (emitted_event isoformat utcnow_isoformat cs metadata allowlist n
               record Hp).
    destruct (log_based_record metadata n allowlist record) as [e|[r|]] eqn:Hr.
    + by destruct (Hnorm n record e ltac:(lia) Hp).
    + rewrite IH; [done | lia | intros; apply Hevents; lia | lia].
    + rewrite IH; [done | lia | intros; apply Hevents; lia | lia].
Qed.

(** Before any record was yielded: polls that yield nothing, up to the first
    yield, at [j]. *)
Lemma drain_to_first_yield cs metadata allowlist j r :
  (forall i, i <= j -> alive cs i = true) ->
  (forall i e, i < j -> try_next cs i <> PollError e) ->
  (forall i record e,
     i < j -> try_next cs i = Some record ->
     log_based_record metadata i allowlist record <> inl e) ->
  (forall i, i < j -> emitted cs metadata allowlist i = None) ->
  emitted cs metadata allowlist j = Some r ->
  forall fuel n,
    n <= j -> j - n < fuel ->
    drain fuel cs metadata allowlist n false true
    = (omap (emitted cs metadata allowlist) (seq n (j - n))
       ++ r :: fst (drain (fuel - S (j - n)) cs metadata allowlist (S j) true true),
       snd (drain (fuel - S (j - n)) cs metadata allowlist (S j) true true)).
Proof.
  intros Halive Hpolls Hnorm Hnone Hyield fuel.
  induction fuel as [|fuel IH]; intros n Hn Hfuel; [lia|].
  cbn [Streams.drain]. rewrite (Halive n) by lia. cbn.
  destruct (decide (n = j)) as [-> | Hne].
  - rewrite Nat.sub_diag. cbn [seq omap app]. replace (fuel - 0) with fuel by lia.
    unfold emitted_at in Hyield.
    destruct (try_next cs j) as [[record|]|e]; [|discriminate|discriminate].
    destruct (log_based_record metadata j allowlist record) as [e|[r'|]];
      try discriminate.
    injection Hyield as ->. rewrite andb_false_r. cbn.
    by destruct (drain fuel cs metadata allowlist (S j) true true).
  - replace (j - n) with (S (j - S n)) by lia. cbn [seq omap list_omap].
    rewrite (Hnone n) by lia.
    pose proof (Hnone n ltac:(lia)) as Hn'. unfold emitted_at in Hn'.
    destruct (try_next cs n) as [[record|]|e] eqn:Hp.
    + destruct (log_based_record metadata n allowlist record) as [e|[r'|]] eqn:Hr.
      * by destruct (Hnorm n record e ltac:(lia) Hp).
      * discriminate.
      * rewrite andb_false_r. apply IH; lia.
    + rewrite andb_false_r. apply IH; lia.
    + by destruct (Hpolls n e ltac:(lia)).
Qed.

(** An observation that ends while the loop is running stopped before a poll
    the loop was about to make: the cursor is alive there, [keep_open] is
    set, and a longer observation goes on from that poll, with the
    has-seen-a-record flag set when a record was yielded. *)
Lemma drain_running cs metadata allowlist k :
  forall n seen keep_open ys,
    drain k cs metadata allowlist n seen keep_open = (ys, Running) ->
    keep_open = true
    /\ alive cs (n + k) = true
    /\ forall extra,
         drain (k + extra) cs metadata allowlist n seen keep_open
         = (ys ++ fst (drain extra cs metadata allowlist (n + k)
                         (seen || (0 <? length ys)) true),
            snd (drain extra cs metadata allowlist (n + k)
                   (seen || (0 <? length ys)) true)).
Proof.
  induction k as [|k IH]; intros n seen keep_open ys Hd.
  - cbn [Streams.drain] in Hd.
    destruct (alive cs n) eqn:Ha, keep_open; cbn in Hd; try discriminate.
    injection Hd as <-. rewrite Nat.add_0_r, orb_false_r, Ha.
    repeat split. intros extra. cbn [Nat.add app].
    by destruct (drain extra cs metadata allowlist n seen true).
  - cbn [Streams.drain] in Hd.
    destruct (alive cs n) eqn:Ha, keep_open; cbn [andb negb] in Hd;
      try discriminate.
    replace (n + S k) with (S n + k) by lia.
    destruct (try_next cs n) as [[record|]|e] eqn:Hp; [| |discriminate].
    + cbn in Hd.
      destruct (log_based_record metadata n allowlist record) as [e|[r|]] eqn:Hr;
        [discriminate| |].
      * destruct (drain k cs metadata allowlist (S n) true true)
          as [rest s] eqn:Hd'.
        injection Hd as <- ->.
        destruct (IH _ _ _ _ Hd') as (_ & Ha' & Hmore).
        repeat split; [done|]. intros extra.
        cbn [Nat.add Streams.drain]. rewrite Ha, Hp, Hr. cbn.
        rewrite Hmore. cbn. by rewrite orb_true_r.
      * destruct (IH _ _ _ _ Hd) as (_ & Ha' & Hmore).
        repeat split; [done|]. intros extra.
        cbn [Nat.add Streams.drain]. rewrite Ha, Hp, Hr. cbn.
        by rewrite Hmore.
    + cbn in Hd. destruct seen; cbn in Hd.
      { by destruct (IH _ _ _ _ Hd) as (? & _). }
      destruct (IH _ _ _ _ Hd) as (_ & Ha' & Hmore).
      repeat split; [done|]. intros extra.
      cbn [Nat.add Streams.drain]. rewrite Ha, Hp. cbn.
      by rewrite Hmore.
Qed.

(** Polls that are idle for the allow-list contribute nothing. *)
Lemma emitted_idle cs metadata allowlist i :
  idle_poll allowlist (try_next cs i) ->
  emitted cs metadata allowlist i = None.
Proof.
  unfold emitted_at, idle_poll.
  destruct (try_next cs i) as [[record|]|e]; [|done..].
  intros Hex.
  by rewrite (excluded_skipped isoformat utcnow_isoformat _ _ _ _ Hex).
Qed.

Lemma omap_emitted_idle cs metadata allowlist len :
  forall n,
    (forall i, n <= i < n + len -> idle_poll allowlist (try_next cs i)) ->
    omap (emitted cs metadata allowlist) (seq n len) = [].
Proof.
  induction len as [|len IH]; intros n Hidle; [reflexivity|].
  cbn [seq omap list_omap]. rewrite emitted_idle by (apply Hidle; lia).
  apply IH. intros i Hi. apply Hidle. lia.
Qed.

(** One more poll of an invocation that has yielded nothing: when the poll is
    idle, only the death of the cursor ends the invocation. *)
Lemma get_records_idle_step self state allowlist cs k :
  replication_method self = REPLICATION_LOG_BASED ->
  operation_types (config self) = Some allowlist ->
  watch (_collection self) "updateLookup" state = inr cs ->
  get_records self state k
  = {| yielded := []; effects := [Watch "updateLookup" state];
       ending := Running |} ->
  idle_poll allowlist (try_next cs k) ->
  get_records self state (S k)
  = if alive cs (S k)
    then {| yielded := []; effects := [Watch "updateLookup" state];
            ending := Running |}
    else {| yielded := [];
            effects := [Watch "updateLookup" state; CloseChangeStream];
            ending := Returned |}.
Proof.
  intros Hm Hops Hw Hg Hidle.
  rewrite (get_records_log_based_eq strptime_to_utc isoformat utcnow_isoformat
             self state k allowlist cs Hm Hops Hw) in Hg.
  rewrite (get_records_log_based_eq strptime_to_utc isoformat utcnow_isoformat
             self state (S k) allowlist cs Hm Hops Hw).
  destruct (drain k cs (should_add_metadata self) allowlist 0 false true)
    as [ys s] eqn:Hd.
  injection Hg as -> _ ->.
  destruct (drain_running _ _ _ _ _ _ _ _ Hd) as (_ & Ha & Hmore).
  replace (S k) with (k + 1) at 1 by lia. rewrite Hmore.
  cbn [Nat.add length Nat.ltb Nat.leb orb app] in Ha |- *.
  unfold idle_poll in Hidle.
  destruct (try_next cs k) as [[record|]|e] eqn:Hp; [| |done].
  - rewrite (drain_excluded isoformat utcnow_isoformat 0 cs _ allowlist k
               false true record Ha eq_refl Hp Hidle).
    cbn [Streams.drain]. by destruct (alive cs (S k)).
  - rewrite (drain_first_gap isoformat utcnow_isoformat 0 cs _ allowlist k
               Ha Hp).
    cbn [Streams.drain]. by destruct (alive cs (S k)).
Qed.

(** C2. In LogBased mode, for every invocation of get_records observed poll
    by poll. While no record has been yielded, a poll that returns nothing
    (or an event the allow-list excludes) does not end the invocation: after
    it nothing is yielded still, and the invocation is draining with its
    change stream open unless the cursor has died; so an invocation is still
    draining after any number of such polls on a live cursor. Once a record
    has been yielded, the first poll that returns nothing ends the
    invocation: from then on get_records has returned, with the records it
    had yielded and the change stream closed. In particular, when the first
    record is yielded at poll [j] and the first empty poll after it is poll
    [k], the invocation returns after poll [k] with the records of the polls
    from [j] up to [k]. *)
Theorem drain_gap_policy self state allowlist cs :
  replication_method self = REPLICATION_LOG_BASED ->
  operation_types (config self) = Some allowlist ->
  watch (_collection self) "updateLookup" state = inr cs ->
  let opened := Watch "updateLookup" state in
  let metadata := should_add_metadata self in
  (forall k,
     get_records self state k
     = {| yielded := []; effects := [opened]; ending := Running |} ->
     idle_poll allowlist (try_next cs k) ->
     get_records self state (S k)
     = if alive cs (S k)
       then {| yielded := []; effects := [opened]; ending := Running |}
       else {| yielded := []; effects := [opened; CloseChangeStream];
               ending := Returned |})
  /\ (forall fuel,
        (forall k, k <= fuel -> alive cs k = true) ->
        (forall k, k < fuel -> idle_poll allowlist (try_next cs k)) ->
        get_records self state fuel
        = {| yielded := []; effects := [opened]; ending := Running |})
  /\ (forall k ys,
        get_records self state k
        = {| yielded := ys; effects := [opened]; ending := Running |} ->
        ys <> [] -> try_next cs k = None ->
        forall fuel,
          k < fuel ->
          get_records self state fuel
          = {| yielded := ys; effects := [opened; CloseChangeStream];
               ending := Returned |})
  /\ (forall j k r fuel,
        (forall i, i <= k -> alive cs i = true) ->
        (forall i, i < j -> idle_poll allowlist (try_next cs i)) ->
        emitted cs metadata allowlist j = Some r ->
        j < k ->
        (forall i, j < i < k ->
           exists record,
             try_next cs i = Some record
             /\ forall e, log_based_record metadata i allowlist record <> inl e) ->
        try_next cs k = None ->
        k < fuel ->
        get_records self state fuel
        = {| yielded := r :: omap (emitted cs metadata allowlist)
                               (seq (S j) (k - S j));
             effects := [opened; CloseChangeStream];
             ending := Returned |}).
Proof.
  intros Hm Hops Hw opened metadata. subst opened metadata.
  split; [intros k; by apply get_records_idle_step|].
  split; [|split].
  - intros fuel. induction fuel as [|fuel IH]; intros Ha Hidle.
    + rewrite (get_records_log_based_eq strptime_to_utc isoformat
                 utcnow_isoformat self state _ allowlist cs Hm Hops Hw).
      cbn [Streams.drain]. by rewrite (Ha 0).
    + rewrite (get_records_idle_step self state allowlist cs fuel Hm Hops Hw).
      * by rewrite (Ha (S fuel)).
      * apply IH; intros; [apply Ha | apply Hidle]; lia.
      * apply Hidle. lia.
  - intros k ys Hg Hys Hp fuel Hfuel.
    rewrite (get_records_log_based_eq strptime_to_utc isoformat utcnow_isoformat
               self state k allowlist cs Hm Hops Hw) in Hg.
    rewrite (get_records_log_based_eq strptime_to_utc isoformat utcnow_isoformat
               self state fuel allowlist cs Hm Hops Hw).
    destruct (drain k cs (should_add_metadata self) allowlist 0 false true)
      as [ys' s] eqn:Hd.
    injection Hg as -> _ ->.
    destruct (drain_running _ _ _ _ _ _ _ _ Hd) as (_ & Ha & Hmore).
    replace fuel with (k + S (fuel - S k)) by lia. rewrite Hmore.
    destruct ys as [|r ys]; [done|].
    cbn [Nat.add length Nat.ltb Nat.leb orb] in Ha |- *.
    rewrite (drain_later_gap isoformat utcnow_isoformat) by done.
    cbn. by rewrite app_nil_r.
  - intros j k r fuel Ha Hidle Hyield Hjk Hevents Hgap Hfuel.
    assert (Hj : exists record,
               try_next cs j = Some record
               /\ log_based_record (should_add_metadata self) j allowlist record
                  = inr (Some r)).
    { unfold emitted_at in Hyield.
      destruct (try_next cs j) as [[record|]|e]; [|done..].
      exists record. split; [done|].
      by destruct (log_based_record _ j allowlist record) as [e|[r'|]];
        simplify_eq. }
    destruct Hj as (recordj & Hpj & Hrj).
    assert (Hpolls : forall i e, i < k -> try_next cs i <> PollError e).
    { intros i e Hi Hp.
      destruct (Nat.lt_trichotomy i j) as [Hlt | [-> | Hgt]].
      - specialize (Hidle i Hlt). rewrite Hp in Hidle. done.
      - congruence.
      - destruct (Hevents i ltac:(lia)) as (record & Hp' & _). congruence. }
    assert (Hnorm : forall i record e,
               i < k -> try_next cs i = Some record ->
               log_based_record (should_add_metadata self) i allowlist record
               <> inl e).
    { intros i record e Hi Hp.
      destruct (Nat.lt_trichotomy i j) as [Hlt | [-> | Hgt]].
      - specialize (Hidle i Hlt). rewrite Hp in Hidle. cbn in Hidle.
        by rewrite (excluded_skipped isoformat utcnow_isoformat _ _ _ _ Hidle).
      - replace record with recordj by congruence. by rewrite Hrj.
      - destruct (Hevents i ltac:(lia)) as (record' & Hp' & Hok).
        replace record with record' by congruence. apply Hok. }
    rewrite (get_records_log_based_eq strptime_to_utc isoformat utcnow_isoformat
               self state fuel allowlist cs Hm Hops Hw).
    rewrite (drain_to_first_yield cs (should_add_metadata self) allowlist j r);
      [|intros; apply Ha; lia
       |intros i e Hi; apply Hpolls; lia
       |intros i record e Hi; apply Hnorm; lia
       |intros; apply emitted_idle, Hidle; lia
       |done | lia | lia].
    rewrite (drain_to_gap cs (should_add_metadata self) allowlist k);
      [|done | done | done | done | lia | | lia].
    + rewrite Nat.sub_0_r, omap_emitted_idle by (intros; apply Hidle; lia).
      reflexivity.
    + intros i Hi Hp. destruct (Hevents i ltac:(lia)) as (record & Hp' & _).
      congruence.
Qed.

(** X15. A LogBased invocation drains its backlog and ends: when the cursor
    stays alive, the first record is yielded at poll [j], the first empty
    poll after it is poll [k], no poll before [k] raises and no event polled
    before [k] fails to be normalized, then get_records returns after poll
    [k], having yielded the records of the polls before [k] in order, and
    the change stream is closed. *)
Theorem log_based_catches_up self state fuel allowlist cs j k r :
  replication_method self = REPLICATION_LOG_BASED ->
  operation_types (config self) = Some allowlist ->
  watch (_collection self) "updateLookup" state = inr cs ->
  (forall i, i <= k -> alive cs i = true) ->
  (forall i e, i < k -> try_next cs i <> PollError e) ->
  (forall i record e,
     i < k -> try_next cs i = Some record ->
     log_based_record (should_add_metadata self) i allowlist record <> inl e) ->
  (forall i, i < j -> emitted cs (should_add_metadata self) allowlist i = None) ->
  emitted cs (should_add_metadata self) allowlist j = Some r ->
  j < k ->
  (forall i, j < i < k -> try_next cs i <> None) ->
  try_next cs k = None ->
  k < fuel ->
  get_records self state fuel
  = {| yielded := omap (emitted cs (should_add_metadata self) allowlist) (seq 0 k);
       effects := [Watch "updateLookup" state; CloseChangeStream];
       ending := Returned |}.
Proof.
  intros Hm Hops Hw Halive Hpolls Hnorm Hnone Hyield Hjk Hevents Hgap Hfuel.
  rewrite (get_records_log_based_eq strptime_to_utc isoformat utcnow_isoformat
             self state fuel allowlist cs Hm Hops Hw).
  rewrite (drain_to_first_yield cs (should_add_metadata self) allowlist j r);
    [|intros; apply Halive; lia
     |intros i e Hi; apply Hpolls; lia
     |intros i record e Hi; apply Hnorm; lia
     |done | done | lia | lia].
  rewrite (drain_to_gap cs (should_add_metadata self) allowlist k);
    [|done | done | done | done | lia | intros; apply Hevents; lia | lia].
  cbn. f_equal. rewrite Nat.sub_0_r.
  assert (Hk : seq 0 k = seq 0 j ++ j :: seq (S j) (k - S j)).
  { replace k with (j + S (k - S j)) at 1 by lia. by rewrite seq_app. }
  rewrite Hk, omap_app. cbn [omap list_omap]. by rewrite Hyield.
Qed.

(** X16. An event of the allow-list that has no fullDocument cannot be
    emitted, delete or not: when its clusterTime and resume token are in
    order, its normalization raises KeyError for "fullDocument", and the
    iteration that polls it ends the invocation with that error. *)
Theorem event_without_full_document metadata allowlist record op time token data :
  record !! "operationType" = Some (VStr op) -> op ∈ allowlist ->
  record !! "clusterTime" = Some (VTimestamp time) ->
  record !! "_id" = Some (VDict token) -> token !! "_data" = Some data ->
  record !! "fullDocument" = None ->
  (forall n, log_based_record metadata n allowlist record
             = inl (KeyError "fullDocument"))
  /\ (forall cs fuel n seen,
        alive cs n = true -> try_next cs n = Some record ->
        drain (S fuel) cs metadata allowlist n seen true
        = ([], Raised (KeyError "fullDocument"))).
Proof.
  intros Hop Hin Hct Hid Hdata Hdoc.
  assert (Hrec : forall n, log_based_record metadata n allowlist record
                           = inl (KeyError "fullDocument")).
  { intros n.
    unfold Streams.log_based_record, getitem, mbind, exn_bind, mret, exn_ret.
    rewrite Hop. cbn. rewrite (bool_decide_eq_true_2 _ Hin). cbn.
    rewrite Hct, Hid. cbn. unfold getitem. by rewrite Hdata, Hdoc. }
  split; [exact Hrec|].
  intros cs fuel n seen Ha Hp. cbn [Streams.drain].
  by rewrite Ha, Hp, Hrec.
Qed.

(** X17. A poll that raises ends the invocation with that error: when the
    loop reaches poll [k] and the poll raises [e], get_records raises [e]
    there, the records it had yielded stay yielded, and leaving the [with]
    block closes the change stream. *)
Theorem log_based_poll_error self state allowlist cs k ys e :
  replication_method self = REPLICATION_LOG_BASED ->
  operation_types (config self) = Some allowlist ->
  watch (_collection self) "updateLookup" state = inr cs ->
  get_records self state k
  = {| yielded := ys; effects := [Watch "updateLookup" state];
       ending := Running |} ->
  try_next cs k = PollError e ->
  forall fuel,
    k < fuel ->
    get_records self state fuel
    = {| yielded := ys;
         effects := [Watch "updateLookup" state; CloseChangeStream];
         ending := Raised e |}.
Proof.
  intros Hm Hops Hw Hg Hp fuel Hfuel.
  rewrite (get_records_log_based_eq strptime_to_utc isoformat utcnow_isoformat
             self state k allowlist cs Hm Hops Hw) in Hg.
  rewrite (get_records_log_based_eq strptime_to_utc isoformat utcnow_isoformat
             self state fuel allowlist cs Hm Hops Hw).
  destruct (drain k cs (should_add_metadata self) allowlist 0 false true)
    as [ys' s] eqn:Hd.
  injection Hg as -> _ ->.
  destruct (drain_running _ _ _ _ _ _ _ _ Hd) as (_ & Ha & Hmore).
  replace fuel with (k + S (fuel - S k)) by lia. rewrite Hmore.
  cbn [Nat.add Streams.drain] in Ha |- *. rewrite Ha, Hp. cbn.
  by rewrite app_nil_r.
Qed.

End CatchUp.

(** ** The further properties at concrete runs *)

Lemma drain_gap_policy_witness :
  Sample.run Sample.backlog None 1
  = {| yielded := []; effects := [Watch "updateLookup" None];
       ending := Running |}
  /\ Sample.run (Sample.stream "LOG_BASED" (Some ["insert"]) []) None 7
     = {| yielded := []; effects := [Watch "updateLookup" None];
          ending := Running |}
  /\ (forall fuel,
        2 < fuel ->
        Sample.run Sample.backlog None fuel
        = {| yielded := [Sample.insert_record];
             effects := [Watch "updateLookup" None; CloseChangeStream];
             ending := Returned |})
  /\ Sample.run Sample.backlog None 3
     = {| yielded := [Sample.insert_record];
          effects := [Watch "updateLookup" None; CloseChangeStream];
          ending := Returned |}.
Proof.
  assert (Hex : excluded ["insert"; "update"] Sample.delete_event).
  { exists "delete". split; [reflexivity|].
    intros H. repeat (apply elem_of_cons in H as [H|H]; [discriminate|]).
    by apply elem_of_nil in H. }
  pose proof (drain_gap_policy Sample.strptime_to_utc Sample.isoformat
                Sample.utcnow_isoformat Sample.backlog None ["insert"; "update"]
                (Sample.scripted
                   [Some Sample.delete_event; Some Sample.insert_event; None])
                eq_refl eq_refl eq_refl) as Hbacklog.
  pose proof (drain_gap_policy Sample.strptime_to_utc Sample.isoformat
                Sample.utcnow_isoformat
                (Sample.stream "LOG_BASED" (Some ["insert"]) []) None ["insert"]
                (Sample.scripted []) eq_refl eq_refl eq_refl) as Hquiet.
  cbv zeta in Hbacklog, Hquiet.
  destruct Hbacklog as (Hstep & _ & Hgap & Hrun).
  destruct Hquiet as (_ & Hidle & _).
  split; [|split; [|split]].
  - apply (Hstep 0); [reflexivity | exact Hex].
  - apply (Hidle 7); [reflexivity|]. intros k _. by destruct k.
  - intros fuel Hfuel.
    apply (Hgap 2 [Sample.insert_record]);
      [by vm_compute | discriminate | reflexivity | exact Hfuel].
  - apply (Hrun 1 2 Sample.insert_record 3).
    + reflexivity.
    + intros i Hi. destruct i; [exact Hex | lia].
    + by vm_compute.
    + lia.
    + intros i Hi. lia.
    + reflexivity.
    + lia.
Defined.

Lemma sample_unique_ids : unique_ids (Sample.orders []).
Proof.
  unfold unique_ids. cbn.
  repeat (apply NoDup_cons; split;
          [rewrite ?not_elem_of_cons; repeat split;
           try discriminate; apply not_elem_of_nil|]).
  apply NoDup_nil_2.
Qed.

Lemma empty_bookmark_witness :
  Sample.run Sample.incremental (Some EmptyString) 0
  = Sample.run Sample.incremental None 0
  /\ head (effects (Sample.run (Sample.stream "LOG_BASED" (Some ["insert"]) [])
                      (Some EmptyString) 3))
     = Some (Watch "updateLookup" (Some EmptyString)).
Proof.
  split.
  - apply (proj1 (empty_bookmark Sample.strptime_to_utc Sample.isoformat
                    Sample.utcnow_isoformat Sample.incremental 0)).
    reflexivity.
  - apply (proj2 (empty_bookmark Sample.strptime_to_utc Sample.isoformat
                    Sample.utcnow_isoformat
                    (Sample.stream "LOG_BASED" (Some ["insert"]) []) 3)
             ["insert"]); reflexivity.
Defined.

Lemma get_records_unsupported_method_witness :
  Sample.run Sample.full_table_keyless None 0
  = {| yielded := [];
       effects := [LogCritical (unrecognized_method_msg Sample.full_table_keyless)];
       ending := Raised (ValueError (unrecognized_method_msg Sample.full_table_keyless)) |}
  /\ raised (_increment_stream_state Sample.full_table_keyless ∅ None)
     = Some (ValueError (unrecognized_method_msg Sample.full_table_keyless)).
Proof.
  apply (get_records_unsupported_method Sample.strptime_to_utc Sample.isoformat
           Sample.utcnow_isoformat); discriminate.
Defined.

Lemma incremental_one_query_witness :
  effects (Sample.run Sample.incremental (Some "6553f1000000000000000002") 0)
  = [Find (Some Sample.I2)]
  /\ effects (Sample.run Sample.incremental (Some "6553f1000000000000 00 02") 0)
     = [FindShort [x65; x53; xf1; x00; x00; x00; x00; x00; x00; x00; x02]]
  /\ effects (Sample.run Sample.incremental (Some "not-an-objectid") 0)
     = [LogWarning
          "Replication key value not-an-objectid cannot be parsed into ObjectId.";
        Find None]
  /\ effects (Sample.run Sample.incremental None 0)
     = [LogInfo "using start_date_str: 1970-01-01";
        Find (Some (OID x00 x00 x00 x00 x00 x00 x00 x00 x00 x00 x00 x00))]
  /\ Sample.run Sample.undated None 0
     = {| yielded := []; effects := [LogInfo "using start_date_str: soon"];
          ending := Raised (ValueError "Unknown string format: soon") |}.
Proof.
  split; [|split; [|split; [|split]]].
  - apply (proj1 (incremental_one_query Sample.strptime_to_utc Sample.isoformat
                    Sample.utcnow_isoformat Sample.incremental
                    (Some "6553f1000000000000000002") 0 eq_refl)
             "6"%char "553f1000000000000000002"); reflexivity.
  - apply (proj1 (proj2 (incremental_one_query Sample.strptime_to_utc
                           Sample.isoformat Sample.utcnow_isoformat
                           Sample.incremental
                           (Some "6553f1000000000000 00 02") 0 eq_refl))
             "6"%char "553f1000000000000 00 02"); reflexivity.
  - apply (proj1 (proj2 (proj2 (incremental_one_query Sample.strptime_to_utc
                                  Sample.isoformat Sample.utcnow_isoformat
                                  Sample.incremental (Some "not-an-objectid") 0
                                  eq_refl)))
             "n"%char "ot-an-objectid"); reflexivity.
  - apply (proj1 (proj2 (proj2 (proj2
             (incremental_one_query Sample.strptime_to_utc Sample.isoformat
                Sample.utcnow_isoformat Sample.incremental None 0 eq_refl))))
             0%Z); [by left | reflexivity | reflexivity].
  - apply (proj2 (proj2 (proj2 (proj2
             (incremental_one_query Sample.strptime_to_utc Sample.isoformat
                Sample.utcnow_isoformat Sample.undated None 0 eq_refl))))
             (ValueError "Unknown string format: soon"));
      [by left | left; reflexivity].
Defined.

Lemma incremental_record_shape_witness :
  exists doc o,
    doc ∈ documents (_collection Sample.incremental)
    /\ doc !! "_id" = Some (VObjectId o)
    /\ bare_record (Sample.order Sample.I1 "tea") Sample.I1
       = if should_add_metadata Sample.incremental
         then <["_sdc_batched_at" := VStr (Sample.utcnow_isoformat 0)]>
                (bare_record doc o)
         else bare_record doc o.
Proof.
  apply (incremental_record_shape Sample.strptime_to_utc Sample.isoformat
           Sample.utcnow_isoformat Sample.incremental None 0 0);
    reflexivity.
Defined.

Lemma log_based_output_in_poll_order_witness :
  exists m,
    m <= 5
    /\ yielded (Sample.run Sample.backlog None 5)
       = omap (emitted_at Sample.isoformat Sample.utcnow_isoformat
                 (Sample.scripted
                    [Some Sample.delete_event; Some Sample.insert_event; None])
                 (should_add_metadata Sample.backlog) ["insert"; "update"])
           (seq 0 m).
Proof.
  apply (log_based_output_in_poll_order Sample.strptime_to_utc Sample.isoformat
           Sample.utcnow_isoformat Sample.backlog None 5);
    reflexivity.
Defined.

Lemma log_based_returns_after_yield_or_death_witness :
  yielded (Sample.run (Sample.stream_on (Some ["insert"]) (Sample.dying 2)) None 5)
  <> []
  \/ exists k, alive (Sample.dying 2) k = false.
Proof.
  apply (log_based_returns_after_yield_or_death Sample.strptime_to_utc
           Sample.isoformat Sample.utcnow_isoformat
           (Sample.stream_on (Some ["insert"]) (Sample.dying 2)) None 5
           ["insert"]);
    reflexivity.
Defined.

Lemma empty_allowlist_yields_nothing_witness :
  yielded (Sample.run (Sample.stream_on (Some []) (Sample.dying 2)) None 5) = []
  /\ (ending (Sample.run (Sample.stream_on (Some []) (Sample.dying 2)) None 5)
      = Returned ->
      exists k, alive (Sample.dying 2) k = false).
Proof.
  apply (empty_allowlist_yields_nothing Sample.strptime_to_utc Sample.isoformat
           Sample.utcnow_isoformat
           (Sample.stream_on (Some []) (Sample.dying 2)) None 5);
    reflexivity.
Defined.

Lemma log_based_ends_with_cursor_witness :
  ending (Sample.run (Sample.stream_on (Some ["insert"]) (Sample.dying 2)) None 5)
  <> Running.
Proof.
  apply (log_based_ends_with_cursor Sample.strptime_to_utc Sample.isoformat
           Sample.utcnow_isoformat
           (Sample.stream_on (Some ["insert"]) (Sample.dying 2)) None 5
           ["insert"] (Sample.dying 2) 2);
    try reflexivity.
  lia.
Defined.

Lemma log_based_record_fields_witness :
  exists op time token data document ns,
    (Sample.insert_event !! "operationType" = Some (VStr op) /\ op ∈ ["insert"]
     /\ Sample.insert_event !! "clusterTime" = Some (VTimestamp time)
     /\ Sample.insert_event !! "_id" = Some (VDict token)
     /\ token !! "_data" = Some data
     /\ Sample.insert_event !! "fullDocument" = Some document
     /\ Sample.insert_event !! "ns" = Some ns)
    /\ (Sample.insert_record !! "_id" = Some data
        /\ Sample.insert_record !! "document" = Some document
        /\ Sample.insert_record !! "operationType" = Some (VStr op)
        /\ Sample.insert_record !! "clusterTime"
           = Some (VStr (Sample.isoformat time))
        /\ Sample.insert_record !! "ns" = Some ns)
    /\ Sample.insert_record !! "_sdc_extracted_at"
       = (if false then Some (VStr (Sample.isoformat time)) else None)
    /\ Sample.insert_record !! "_sdc_batched_at"
       = (if false then Some (VStr (Sample.utcnow_isoformat 0)) else None)
    /\ Sample.insert_record !! "_sdc_deleted_at"
       = (if false && String.eqb op "delete"
          then Some (VStr (Sample.isoformat time)) else None).
Proof.
  apply (log_based_record_fields Sample.isoformat Sample.utcnow_isoformat
           false 0 ["insert"] Sample.insert_event Sample.insert_record).
  vm_compute. reflexivity.
Defined.

Lemma log_based_errors_witness :
  (exists record,
     try_next (Sample.scripted [Some Sample.delete_event; None]) 0 = Some record
     /\ ~ excluded ["insert"; "delete"] record
     /\ log_based_record Sample.isoformat Sample.utcnow_isoformat false 0
          ["insert"; "delete"] record
        = inl (KeyError "fullDocument"))
  /\ exists k,
       try_next Sample.interrupted k
       = PollError (OperationFailure "connection closed").
Proof.
  split.
  - destruct (log_based_errors Sample.strptime_to_utc Sample.isoformat
                Sample.utcnow_isoformat
                (Sample.stream "LOG_BASED" (Some ["insert"; "delete"])
                   [Some Sample.delete_event; None])
                None 5 (KeyError "fullDocument") eq_refl eq_refl)
      as [Hops | (allowlist & Hops & [Hw | (cs & k & Hw & Hfrom)])];
      [discriminate | discriminate |].
    injection Hops as <-. injection Hw as <-.
    destruct Hfrom as [Hp | (record & Hp & Hex & Hr)].
    + destruct k as [|[|k]]; discriminate.
    + destruct k as [|[|k]]; [|discriminate..].
      exists record. by repeat split.
  - destruct (log_based_errors Sample.strptime_to_utc Sample.isoformat
                Sample.utcnow_isoformat
                (Sample.stream_on (Some ["insert"]) Sample.interrupted)
                None 5 (OperationFailure "connection closed") eq_refl eq_refl)
      as [Hops | (allowlist & Hops & [Hw | (cs & k & Hw & Hfrom)])];
      [discriminate | discriminate |].
    injection Hw as <-.
    destruct Hfrom as [Hp | (record & Hp & _)]; [by exists k | discriminate].
Defined.

Lemma incremental_resume_after_witness :
  let g := Sample.run Sample.incremental (Some "6553f1000000000000000002") 0 in
  ending g = Returned
  /\ delete "_sdc_batched_at" <$> yielded g
     = delete "_sdc_batched_at"
         <$> [bare_record (Sample.order Sample.I3 "cocoa") Sample.I3]
  /\ (should_add_metadata Sample.incremental = false ->
      yielded g = [bare_record (Sample.order Sample.I3 "cocoa") Sample.I3]).
Proof.
  apply (incremental_resume_after Sample.strptime_to_utc Sample.isoformat
           Sample.utcnow_isoformat Sample.incremental None 0 0
           [bare_record (Sample.order Sample.I1 "tea") Sample.I1]
           (bare_record (Sample.order Sample.I2 "coffee") Sample.I2)
           [bare_record (Sample.order Sample.I3 "cocoa") Sample.I3]
           "6553f1000000000000000002").
  - reflexivity.
  - exact sample_unique_ids.
  - reflexivity.
  - reflexivity.
Defined.

Lemma incremental_ids_ascend_as_text_witness :
  let texts := id_texts (yielded (Sample.run Sample.incremental None 0)) in
  length texts = length (yielded (Sample.run Sample.incremental None 0))
  /\ StronglySorted (fun a b => str_lt b a = false) texts
  /\ (unique_ids (_collection Sample.incremental) ->
      StronglySorted (fun a b => str_lt a b = true) texts).
Proof.
  apply (incremental_ids_ascend_as_text Sample.strptime_to_utc Sample.isoformat
           Sample.utcnow_isoformat Sample.incremental None 0).
  reflexivity.
Defined.

Lemma log_based_catches_up_witness :
  Sample.run Sample.backlog None 5
  = {| yielded :=
         omap (emitted_at Sample.isoformat Sample.utcnow_isoformat
                 (Sample.scripted
                    [Some Sample.delete_event; Some Sample.insert_event; None])
                 (should_add_metadata Sample.backlog) ["insert"; "update"])
           (seq 0 2);
       effects := [Watch "updateLookup" None; CloseChangeStream];
       ending := Returned |}.
Proof.
  apply (log_based_catches_up Sample.strptime_to_utc Sample.isoformat
           Sample.utcnow_isoformat Sample.backlog None 5 ["insert"; "update"]
           (Sample.scripted
              [Some Sample.delete_event; Some Sample.insert_event; None])
           1 2 Sample.insert_record).
  - reflexivity.
  - reflexivity.
  - reflexivity.
  - reflexivity.
  - intros i e Hi. destruct i as [|[|i]]; [| |lia]; discriminate.
  - intros i record e Hi Hp.
    destruct i as [|[|i]]; [| |lia]; injection Hp as <-; by vm_compute.
  - intros i Hi. destruct i; [reflexivity | lia].
  - vm_compute. reflexivity.
  - lia.
  - intros i Hi. lia.
  - reflexivity.
  - lia.
Defined.

Lemma event_without_full_document_witness :
  (forall n,
     log_based_record Sample.isoformat Sample.utcnow_isoformat false n
       ["insert"; "delete"] Sample.delete_event
     = inl (KeyError "fullDocument"))
  /\ (forall cs fuel n seen,
        alive cs n = true -> try_next cs n = Some Sample.delete_event ->
        drain Sample.isoformat Sample.utcnow_isoformat (S fuel) cs false
          ["insert"; "delete"] n seen true
        = ([], Raised (KeyError "fullDocument"))).
Proof.
  apply (event_without_full_document Sample.isoformat Sample.utcnow_isoformat
           false ["insert"; "delete"] Sample.delete_event "delete" 1700000060
           {[ "_data" := VStr "8265537DDC000000012B0229296E04" ]}
           (VStr "8265537DDC000000012B0229296E04"));
    try reflexivity.
  apply elem_of_cons. right. apply elem_of_cons. by left.
Defined.

Lemma log_based_poll_error_witness :
  Sample.run (Sample.stream_on (Some ["insert"]) Sample.interrupted) None 3
  = {| yielded := [];
       effects := [Watch "updateLookup" None; CloseChangeStream];
       ending := Raised (OperationFailure "connection closed") |}.
Proof.
  apply (log_based_poll_error Sample.strptime_to_utc Sample.isoformat
           Sample.utcnow_isoformat
           (Sample.stream_on (Some ["insert"]) Sample.interrupted) None
           ["insert"] Sample.interrupted 0 []
           (OperationFailure "connection closed"));
    [reflexivity.. | lia].
Defined.
